(** * Arduino_AdvancedAnalog: DMA buffer pool and DAC streaming driver

    A shallow embedding of [src/DMABuffer.h] and [src/AdvancedDAC.cpp].

    - C++ integers are [Z] with the wrap-around of the 32-bit target
      (Cortex-M7) written out.
    - Pointers to [DMABuffer] objects are values of [bufptr]; the objects
      themselves live in the [world] (inside the pool that owns them), so
      that aliasing between the queues, the in-flight slots and the
      application is visible.
    - A null-pointer dereference has no defined behaviour: every operation
      that may perform one returns [option], and [None] stands for it.
    - Calls into the HAL (timer, DAC, DMA, cache maintenance) are recorded,
      in order, in the [hal] log of the [world]. *)

From Stdlib Require Import ZArith List Lia Bool.
From stdpp Require Import base list relations.
Import ListNotations.

Local Open Scope Z_scope.

(** ** Machine integers *)

(** [size_t] and [uintptr_t] are 32 bits wide on the target. *)
Definition SIZE_MAX : Z := 2 ^ 32.

(** Conversion of a mathematical integer to [size_t]. *)
Definition size_t (z : Z) : Z := z mod SIZE_MAX.

Definition sizeof_voidp : Z := 4.

(** The element type [T] of a buffer: an integer type of a given width. *)
Record int_type : Type := mk_int_type { bits : Z; signed : bool }.

Definition uint16_t : int_type := mk_int_type 16 false.
Definition int16_t : int_type := mk_int_type 16 true.

Definition sizeof (T : int_type) : Z := bits T / 8.

(** Conversion of an [int] to [T] (as in [return -1;] from a function
    returning [T]). *)
Definition cast (T : int_type) (z : Z) : Z :=
  if signed T
  then (z + 2 ^ (bits T - 1)) mod 2 ^ bits T - 2 ^ (bits T - 1)
  else z mod 2 ^ bits T.

(** Largest value of [T]. *)
Definition max_value (T : int_type) : Z :=
  if signed T then 2 ^ (bits T - 1) - 1 else 2 ^ bits T - 1.

(** ** Memory

    A memory maps an address to the object stored there by a typed access;
    [None] is an address at which no object of the program lives. *)
Definition memory : Type := Z -> option Z.

Definition store (m : memory) (a v : Z) : memory :=
  fun x => if x =? a then Some v else m x.

Definition no_memory : memory := fun _ => None.

(** A result of [::malloc (n)]: null, or a block of [n] bytes inside the
    address space, the address one past its end being an address too. *)
Definition valid_block (base n : Z) : Prop :=
  0 < base /\ base + n < SIZE_MAX.

Definition sound_allocator (sys_malloc : Z -> Z) : Prop :=
  forall n, sys_malloc n = 0 \/ valid_block (sys_malloc n) n.

(** A monadic bind for operations that may dereference a null pointer. *)
Notation "'let*' x ':=' m 'in' f" :=
  (match m with Some x => f | None => None end)
  (at level 10, x pattern, m at level 100, f at level 200,
   format "'[v' 'let*'  x  ':='  m  'in' '/' f ']'").

(** ** [AlignedAlloc<A>] *)

Module AlignedAlloc.
Section WithAlignment.

(** The template parameter [A]. *)
Variable A : Z.

Definition offset : Z := size_t (A - 1 + sizeof_voidp).

(** [~(A-1)] in [size_t]. *)
Definition mask : Z := size_t (Z.lnot (size_t (A - 1))).

(** [malloc]: [sys_malloc] is [::malloc], of which only the result is
  observed.  Returns the aligned pointer and the memory after
  [ptr[-1] = stashed]. *)
Definition malloc (sys_malloc : Z -> Z) (size : Z) (m : memory)
: Z * memory :=
if negb (A mod 2 =? 0) then (0, m)
else
  let stashed := sys_malloc (size_t (size + offset)) in
  if stashed =? 0 then (0, m)
  else
    let ptr := Z.land (size_t (stashed + offset)) mask in
    (ptr, store m (ptr - sizeof_voidp) stashed).


Definition round (size : Z) : Z :=
Z.land (size_t (size + size_t (A - 1))) mask.

End WithAlignment.
End AlignedAlloc.

(** [__SCB_DCACHE_LINE_SIZE] *)
Definition SCB_DCACHE_LINE_SIZE : Z := 32.


(** ** [DMABuffer<T, A>] *)

(** A pointer to a [DMABuffer] object.  The program has two kinds of such
    objects: the function-local static [NULLBUF] of [AdvancedDAC::dequeue],
    and the elements of the [buffers] array of a pool; a pool is named by
    the index, in [dac_descr_all], of the descriptor that owns it. *)
Inductive bufptr : Type :=
| nullptr
| NULLBUF
| bufat (p : nat) (i : nat).

Global Instance bufptr_eq_dec : EqDecision bufptr.
Proof. solve_decision. Defined.

(** The fields of a [DMABuffer].  The public field [next] is the link by
    which [LLQueue] chains the buffers of a queue; it is represented by the
    position of the pointer in the queue.  A buffer has one link, so it can
    be in one queue, once: the representation follows the code in the states
    in which each buffer is in at most one queue and at most once, which the
    invariant [owned] below guarantees along every run. *)
Record DMABuffer : Type := mkDMABuffer {
  buf_pool : option nat;
  buf_n_samples : Z;
  buf_n_channels : Z;
  buf_ptr : Z;
  buf_ts : Z;
  buf_flags : Z
}.

(** [DMABuffer(pool=nullptr, samples=0, channels=0, mem=nullptr)] *)
Definition DMABuffer_ctor (pool : option nat) (samples channels mem : Z)
  : DMABuffer :=
  mkDMABuffer pool samples channels mem 0 0.

Definition DMABuffer_default : DMABuffer := DMABuffer_ctor None 0 0 0.

Definition DMA_BUFFER_DISCONT : Z := Z.shiftl 1 0.
Definition DMA_BUFFER_INTRLVD : Z := Z.shiftl 1 1.

Definition DMABuffer_data (b : DMABuffer) : Z := buf_ptr b.

Definition DMABuffer_size (b : DMABuffer) : Z :=
  size_t (buf_n_samples b * buf_n_channels b).

Definition DMABuffer_bytes (T : int_type) (b : DMABuffer) : Z :=
  size_t (size_t (buf_n_samples b * buf_n_channels b) * sizeof T).

Definition DMABuffer_timestamp (b : DMABuffer) : Z := buf_ts b.

Definition DMABuffer_set_timestamp (b : DMABuffer) (ts : Z) : DMABuffer :=
  mkDMABuffer (buf_pool b) (buf_n_samples b) (buf_n_channels b) (buf_ptr b)
    ts (buf_flags b).

Definition DMABuffer_channels (b : DMABuffer) : Z := buf_n_channels b.

Definition set_flags (b : DMABuffer) (f : Z) : DMABuffer :=
  mkDMABuffer (buf_pool b) (buf_n_samples b) (buf_n_channels b) (buf_ptr b)
    (buf_ts b) f.

Definition DMABuffer_setflags (b : DMABuffer) (f : Z) : DMABuffer :=
  set_flags b (Z.lor (buf_flags b) f).

Definition DMABuffer_getflags (b : DMABuffer) (f : Z) : bool :=
  negb (Z.land (buf_flags b) f =? 0).

Definition DMABuffer_clrflags (b : DMABuffer) (f : Z) : DMABuffer :=
  set_flags b (Z.land (buf_flags b) (size_t (Z.lnot f))).

(** [operator[]]: [data()[i]] is the object at [ptr + i * sizeof (T)]. *)
Definition DMABuffer_index (T : int_type) (b : DMABuffer) (i : Z)
    (m : memory) : option Z :=
  if negb (buf_ptr b =? 0) && (i <? DMABuffer_size b)
  then m (DMABuffer_data b + i * sizeof T)
  else Some (cast T (-1)).

(** ** [LLQueue<DMABuffer<T>*>] *)

(** Modelled from the spec: [Queue.h], which declares [LLQueue], is not
    among the sources.  The spec describes the free and the ready queue as
    hand-off queues of buffer references with a push, a pop and an
    emptiness test, a pop on an empty queue giving a null result.  The
    queue is the sequence of the pointers it holds, oldest first; a push is
    meant for a buffer that is in no queue, see [DMABuffer]. *)
Definition LLQueue : Type := list bufptr.

Definition LLQueue_empty (q : LLQueue) : bool :=
  match q with [] => true | _ :: _ => false end.

Definition LLQueue_push (q : LLQueue) (v : bufptr) : LLQueue := q ++ [v].

Definition LLQueue_pop (q : LLQueue) : bufptr * LLQueue :=
  match q with
  | [] => (nullptr, [])
  | v :: q' => (v, q')
  end.

(** ** The state of the program *)

Record DMABufferPool : Type := mkDMABufferPool {
  freeq : LLQueue;
  readyq : LLQueue;
  buffers : option (list DMABuffer);
  pool_mem : Z
}.

(** A channel descriptor.  The hardware handles of a descriptor ([dac],
    [dma], [dma_irqn], [tim], [tim_trig]) never change; in the [hal] log a
    handle is named by the index of its descriptor. *)
Record dac_descr_t : Type := mk_dac_descr {
  channel : Z;
  resolution : Z;
  pool : option DMABufferPool;
  dmabuf : list bufptr
}.

Inductive hal_call : Type :=
| SCB_CleanDCache_by_Addr (addr dsize : Z)
| SCB_InvalidateDCache_by_Addr (addr dsize : Z)
| HAL_TIM_Base_Stop (tim : nat)
| HAL_TIM_Base_Start (tim : nat)
| HAL_DAC_Stop_DMA (dac : nat) (chan : Z)
| HAL_DAC_Start_DMA (dac : nat) (chan data len alignment : Z)
| hal_dma_enable_dbm (dma : nat) (m0 m1 : Z)
| hal_dma_update_memory (dma : nat) (addr : Z)
| hal_dma_config (dma : nat)
| hal_dac_config (dac : nat) (chan : Z)
| HAL_LINKDMA (dac : nat) (handle : nat) (dma : nat)
| hal_tim_config (tim : nat) (frequency : Z)
| pinmap_pinout (pin : Z).

Global Instance hal_call_eq_dec : EqDecision hal_call.
Proof. solve_decision. Defined.

Record world : Type := mkWorld {
  dac_descr_all : list dac_descr_t;
  NULLBUF_obj : DMABuffer;
  hal : list hal_call;
  mem : memory
}.

(** *** Access to the state *)

Definition log (c : hal_call) (w : world) : world :=
  mkWorld (dac_descr_all w) (NULLBUF_obj w) (hal w ++ [c]) (mem w).

Definition set_descr (d : nat) (dd : dac_descr_t) (w : world) : world :=
  mkWorld (<[d := dd]> (dac_descr_all w)) (NULLBUF_obj w) (hal w) (mem w).

Definition set_mem (m : memory) (w : world) : world :=
  mkWorld (dac_descr_all w) (NULLBUF_obj w) (hal w) m.

Definition with_pool (dd : dac_descr_t) (p : option DMABufferPool)
  : dac_descr_t :=
  mk_dac_descr (channel dd) (resolution dd) p (dmabuf dd).

Definition with_resolution (dd : dac_descr_t) (r : Z) : dac_descr_t :=
  mk_dac_descr (channel dd) r (pool dd) (dmabuf dd).

Definition with_dmabuf (dd : dac_descr_t) (bs : list bufptr) : dac_descr_t :=
  mk_dac_descr (channel dd) (resolution dd) (pool dd) bs.

(** [*pool], for a pool pointer [this]. *)
Definition get_pool (w : world) (this : nat) : option DMABufferPool :=
  let* dd := dac_descr_all w !! this in
  pool dd.

Definition set_pool (this : nat) (pl : DMABufferPool) (w : world)
  : option world :=
  let* dd := dac_descr_all w !! this in
  Some (set_descr this (with_pool dd (Some pl)) w).

(** [descr->dmabuf[i]] and [descr->dmabuf[i] = b]. *)
Definition get_dmabuf (w : world) (d i : nat) : option bufptr :=
  let* dd := dac_descr_all w !! d in
  dmabuf dd !! i.

Definition set_dmabuf (d i : nat) (b : bufptr) (w : world) : option world :=
  let* dd := dac_descr_all w !! d in
  Some (set_descr d (with_dmabuf dd (<[i := b]> (dmabuf dd))) w).

(** [*b], for a buffer pointer [b]. *)
Definition deref (w : world) (b : bufptr) : option DMABuffer :=
  match b with
  | nullptr => None
  | NULLBUF => Some (NULLBUF_obj w)
  | bufat p i =>
      let* pl := get_pool w p in
      let* bs := buffers pl in
      bs !! i
  end.

(** [*b = o] *)
Definition assign (b : bufptr) (o : DMABuffer) (w : world) : option world :=
  match b with
  | nullptr => None
  | NULLBUF => Some (mkWorld (dac_descr_all w) o (hal w) (mem w))
  | bufat p i =>
      let* pl := get_pool w p in
      let* bs := buffers pl in
      let* _ := bs !! i in
      set_pool p
        (mkDMABufferPool (freeq pl) (readyq pl) (Some (<[i := o]> bs))
           (pool_mem pl)) w
  end.

(** ** [DMABufferPool<T, A>] *)

Definition with_freeq (pl : DMABufferPool) (q : LLQueue) : DMABufferPool :=
  mkDMABufferPool q (readyq pl) (buffers pl) (pool_mem pl).

Definition with_readyq (pl : DMABufferPool) (q : LLQueue) : DMABufferPool :=
  mkDMABufferPool (freeq pl) q (buffers pl) (pool_mem pl).

(** What the allocations of a pool construction give: whether
    [new DMABufferPool] and [new DMABuffer<T>[n_buffers]] give an object,
    and [::malloc]. *)
Record alloc_env : Type := mk_alloc_env {
  new_pool : bool;
  new_buffers : bool;
  sys_malloc : Z -> Z
}.

(** The body of the loop of the constructor:
    [buffers[i] = DMABuffer<T>(this, n_samples, n_channels, &pool[i * bufsize]);
     freeq.push(&buffers[i]);] *)
Definition DMABufferPool_init_buffer (this : nat)
    (n_samples n_channels bufsize : Z) (pl : DMABufferPool) (i : nat)
  : DMABufferPool :=
  let b :=
    DMABuffer_ctor (Some this) n_samples n_channels
      (size_t (pool_mem pl + size_t (Z.of_nat i * bufsize))) in
  mkDMABufferPool (LLQueue_push (freeq pl) (bufat this i)) (readyq pl)
    (option_map (fun bs => <[i := b]> bs) (buffers pl)) (pool_mem pl).

(** [DMABufferPool(n_samples, n_channels, n_buffers)], constructed for the
    pool pointer [this]. *)
Definition DMABufferPool_ctor (T : int_type) (A : Z) (this : nat)
    (n_samples n_channels n_buffers : Z) (env : alloc_env) (m : memory)
  : DMABufferPool * memory :=
  let bufsize :=
    AlignedAlloc.round A
      (size_t (size_t (n_samples * n_channels) * sizeof T)) in
  let bufs :=
    if new_buffers env
    then Some (replicate (Z.to_nat n_buffers) DMABuffer_default)
    else None in
  let '(p, m') :=
    AlignedAlloc.malloc A (sys_malloc env) (size_t (n_buffers * bufsize)) m in
  let pl := mkDMABufferPool [] [] bufs p in
  if bool_decide (bufs <> None) && negb (p =? 0) then
    (fold_left (DMABufferPool_init_buffer this n_samples n_channels bufsize)
       (seq 0 (Z.to_nat n_buffers)) pl, m')
  else (pl, m').

Definition DMABufferPool_writable (this : nat) (w : world) : option bool :=
  let* pl := get_pool w this in
  Some (negb (LLQueue_empty (freeq pl))).

Definition DMABufferPool_readable (this : nat) (w : world) : option bool :=
  let* pl := get_pool w this in
  Some (negb (LLQueue_empty (readyq pl))).

Definition DMABufferPool_allocate (this : nat) (w : world)
  : option (bufptr * world) :=
  let* pl := get_pool w this in
  let '(b, q) := LLQueue_pop (freeq pl) in
  let* w := set_pool this (with_freeq pl q) w in
  Some (b, w).

Definition DMABufferPool_release (this : nat) (buf : bufptr) (w : world)
  : option world :=
  let* o := deref w buf in
  let* w := assign buf (DMABuffer_clrflags o 4294967295) w in
  let* pl := get_pool w this in
  set_pool this (with_freeq pl (LLQueue_push (freeq pl) buf)) w.

Definition DMABufferPool_enqueue (this : nat) (buf : bufptr) (w : world)
  : option world :=
  let* pl := get_pool w this in
  set_pool this (with_readyq pl (LLQueue_push (readyq pl) buf)) w.

Definition DMABufferPool_dequeue (this : nat) (w : world)
  : option (bufptr * world) :=
  let* pl := get_pool w this in
  let '(b, q) := LLQueue_pop (readyq pl) in
  let* w := set_pool this (with_readyq pl q) w in
  Some (b, w).

(** ** The methods of [DMABuffer] that act on the state *)

Definition DMABuffer_flush (T : int_type) (this : bufptr) (w : world)
  : option world :=
  let* o := deref w this in
  if negb (buf_ptr o =? 0)
  then Some (log (SCB_CleanDCache_by_Addr (DMABuffer_data o)
                    (DMABuffer_bytes T o)) w)
  else Some w.

Definition DMABuffer_invalidate (T : int_type) (this : bufptr) (w : world)
  : option world :=
  let* o := deref w this in
  if negb (buf_ptr o =? 0)
  then Some (log (SCB_InvalidateDCache_by_Addr (DMABuffer_data o)
                    (DMABuffer_bytes T o)) w)
  else Some w.

Definition DMABuffer_release (this : bufptr) (w : world) : option world :=
  let* o := deref w this in
  match buf_pool o with
  | Some p =>
      if negb (buf_ptr o =? 0) then DMABufferPool_release p this w
      else Some w
  | None => Some w
  end.

(** ** The DAC driver, [AdvancedDAC.cpp] *)

(** What the driver takes from headers outside the repository: the sample
    type, the channel and alignment constants of the HAL, and the pin map. *)
Class Platform : Type := {
  Sample : int_type;
  DAC_CHANNEL_1 : Z;
  DAC_CHANNEL_2 : Z;
  DAC_ALIGN_8B_R : Z;
  DAC_ALIGN_12B_R : Z;
  pinmap_function : Z -> Z;
  STM_PIN_CHANNEL : Z -> Z
}.

(** The fields of an [AdvancedDAC] object that the driver uses. *)
Record AdvancedDAC : Type := mkAdvancedDAC {
  descr : option nat;
  n_channels : Z;
  dac_pins : list Z
}.

(** The result of [AdvancedDAC::dequeue]: the buffer it returns, or the
    call is still in its [while (!available()) __WFI ();] loop, which only
    an interrupt handler can end. *)
Inductive acquired : Type :=
| Acquired (b : bufptr) (w : world)
| Suspended.

Section Driver.
Context `{Platform}.

(** The initial value of [dac_descr_all]. *)
Definition dac_descr_all_init : list dac_descr_t :=
  [ mk_dac_descr DAC_CHANNEL_1 DAC_ALIGN_12B_R None [nullptr; nullptr];
    mk_dac_descr DAC_CHANNEL_2 DAC_ALIGN_12B_R None [nullptr; nullptr] ].

Definition world_init : world :=
  mkWorld dac_descr_all_init DMABuffer_default [] no_memory.

Definition DAC_RES_LUT : list Z :=
  [DAC_ALIGN_8B_R; DAC_ALIGN_12B_R; DAC_ALIGN_12B_R].

Definition DAC_CHAN_LUT : list Z := [DAC_CHANNEL_1; DAC_CHANNEL_2].

(** [lut[i]], undefined outside the array. *)
Definition lut_at (lut : list Z) (i : Z) : option Z :=
  if 0 <=? i then lut !! Z.to_nat i else None.

Definition dac_descr_get (chan : Z) : option nat :=
  if chan =? DAC_CHANNEL_1 then Some 0%nat
  else if chan =? DAC_CHANNEL_2 then Some 1%nat
  else None.

(** The loop of [dac_descr_deinit], for the indices [idx] of [dmabuf]. *)
Fixpoint dac_descr_deinit_loop (d : nat) (idx : list nat) (w : world)
  : option world :=
  match idx with
  | [] => Some w
  | i :: idx' =>
      let* b := get_dmabuf w d i in
      let* w1 :=
        (if bool_decide (b <> nullptr) then
           let* w1 := DMABuffer_release b w in
           set_dmabuf d i nullptr w1
         else Some w) in
      dac_descr_deinit_loop d idx' w1
  end.

Definition dac_descr_deinit (descr : option nat) (dealloc_pool : bool)
    (w : world) : option world :=
  match descr with
  | Some d =>
      let* dd := dac_descr_all w !! d in
      let w := log (HAL_TIM_Base_Stop d) w in
      let w := log (HAL_DAC_Stop_DMA d (channel dd)) w in
      let* w :=
        (if dealloc_pool then
           let* dd := dac_descr_all w !! d in
           Some (set_descr d (with_pool dd None) w)
         else Some w) in
      let* dd := dac_descr_all w !! d in
      dac_descr_deinit_loop d (seq 0 (length (dmabuf dd))) w
  | None => Some w
  end.

Definition AdvancedDAC_available (self : AdvancedDAC) (w : world)
  : option bool :=
  match descr self with
  | Some d => DMABufferPool_writable d w
  | None => Some false
  end.

Definition AdvancedDAC_dequeue (self : AdvancedDAC) (w : world)
  : option acquired :=
  match descr self with
  | Some d =>
      let* a := AdvancedDAC_available self w in
      if a then
        let* (b, w') := DMABufferPool_allocate d w in
        let* _ := deref w' b in
        Some (Acquired b w')
      else Some Suspended
  | None => Some (Acquired NULLBUF w)
  end.

Definition AdvancedDAC_write (self : AdvancedDAC) (dmabuf : bufptr)
    (w : world) : option world :=
  let* w := DMABuffer_flush Sample dmabuf w in
  let* d := descr self in
  let* w := DMABufferPool_enqueue d dmabuf w in
  let* b0 := get_dmabuf w d 0 in
  let* r := DMABufferPool_readable d w in
  if bool_decide (b0 = nullptr) && (Z.b2z r >? 2) then
    let* (b, w) := DMABufferPool_dequeue d w in
    let* w := set_dmabuf d 0 b w in
    let* (b, w) := DMABufferPool_dequeue d w in
    let* w := set_dmabuf d 1 b w in
    let* dd := dac_descr_all w !! d in
    let* b0 := get_dmabuf w d 0 in
    let* o0 := deref w b0 in
    let w := log (HAL_DAC_Start_DMA d (channel dd) (DMABuffer_data o0)
                    (DMABuffer_size o0) (resolution dd)) w in
    let* b1 := get_dmabuf w d 1 in
    let* o1 := deref w b1 in
    let w := log (hal_dma_enable_dbm d (DMABuffer_data o0)
                    (DMABuffer_data o1)) w in
    Some (log (HAL_TIM_Base_Start d) w)
  else Some w.

Definition AdvancedDAC_begin (self : AdvancedDAC)
    (res frequency n_samples n_buffers : Z) (env : alloc_env) (w : world)
  : option (Z * AdvancedDAC * world) :=
  if res >=? Z.of_nat (length DAC_RES_LUT) then Some (0, self, w)
  else
    let w :=
      fold_left (fun w pin => log (pinmap_pinout pin) w)
        (take (Z.to_nat (n_channels self)) (dac_pins self)) w in
    let* pin0 := dac_pins self !! 0%nat in
    let function := pinmap_function pin0 in
    let* chan := lut_at DAC_CHAN_LUT (STM_PIN_CHANNEL function - 1) in
    let self := mkAdvancedDAC (dac_descr_get chan) (n_channels self)
                  (dac_pins self) in
    match descr self with
    | None => Some (0, self, w)
    | Some d =>
        let* dd := dac_descr_all w !! d in
        match pool dd with
        | Some _ => Some (0, self, w)
        | None =>
            if new_pool env then
              let '(pl, m) :=
                DMABufferPool_ctor Sample SCB_DCACHE_LINE_SIZE d n_samples
                  (n_channels self) n_buffers env (mem w) in
              let w := set_mem m (set_descr d (with_pool dd (Some pl)) w) in
              let* dd := dac_descr_all w !! d in
              let* r := lut_at DAC_RES_LUT res in
              let w := set_descr d (with_resolution dd r) w in
              let w := log (hal_dma_config d) w in
              let w := log (hal_dac_config d (channel dd)) w in
              let w :=
                (if channel dd =? DAC_CHANNEL_1
                 then log (HAL_LINKDMA d 1 d) w
                 else log (HAL_LINKDMA d 2 d) w) in
              let w := log (hal_tim_config d frequency) w in
              Some (1, self, w)
            else Some (0, self, w)
        end
    end.

Definition AdvancedDAC_stop (self : AdvancedDAC) (w : world)
  : option (Z * world) :=
  let* w := dac_descr_deinit (descr self) false w in
  Some (1, w).

(** [~AdvancedDAC] *)
Definition AdvancedDAC_dtor (self : AdvancedDAC) (w : world)
  : option world :=
  dac_descr_deinit (descr self) true w.

(** [DAC_DMAConvCplt (dma, channel)]; [ct] is what [hal_dma_get_ct (dma)]
    reads from the hardware. *)
Definition DAC_DMAConvCplt (dma : nat) (chan : Z) (ct : bool) (w : world)
  : option world :=
  let descr := dac_descr_get chan in
  let* d := descr in
  let* r := DMABufferPool_readable d w in
  if r then
    let ct := (if ct then 0 else 1)%nat in
    let* b := get_dmabuf w d ct in
    let* w := DMABuffer_release b w in
    let* (b, w) := DMABufferPool_dequeue d w in
    let* w := set_dmabuf d ct b w in
    let* b := get_dmabuf w d ct in
    let* o := deref w b in
    Some (log (hal_dma_update_memory dma (DMABuffer_data o)) w)
  else dac_descr_deinit descr false w.

Definition HAL_DAC_ConvCpltCallbackCh1 (ct : bool) (w : world)
  : option world :=
  DAC_DMAConvCplt 0 DAC_CHANNEL_1 ct w.

Definition HAL_DACEx_ConvCpltCallbackCh2 (ct : bool) (w : world)
  : option world :=
  DAC_DMAConvCplt 1 DAC_CHANNEL_2 ct w.

End Driver.

(** ** Ownership of the buffers of a pool *)

Inductive driver_state : Type := Uninitialized | Armed | Streaming.

(** The state of a channel: no pool bound; a pool bound and no transfer in
    flight ([dmabuf[0] == nullptr], the test of [AdvancedDAC::write]); a
    transfer in flight. *)
Definition state_of (dd : dac_descr_t) : driver_state :=
  match pool dd with
  | None => Uninitialized
  | Some _ =>
      match dmabuf dd !! 0%nat with
      | Some nullptr => Armed
      | _ => Streaming
      end
  end.

(** The pointers to the [N] buffers of the pool of descriptor [d]. *)
Definition pool_buffers (d N : nat) : list bufptr :=
  map (bufat d) (seq 0 N).

(** The buffers in the in-flight slots. *)
Definition in_flight (dd : dac_descr_t) : list bufptr :=
  filter (fun b => b <> nullptr) (dmabuf dd).

(** The [N] buffer objects of a pool that was constructed with memory:
    each refers back to the pool and has its slice of the memory. *)
Definition buffers_bound (d N : nat) (pl : DMABufferPool) : Prop :=
  exists bs, buffers pl = Some bs /\ length bs = N /\
    Forall (fun o => buf_pool o = Some d /\ buf_ptr o <> 0) bs.

(** The state of descriptor [d] right after a pool of [N] buffers was
    constructed and bound to it. *)
Definition pool_fresh (d N : nat) (w : world) : Prop :=
  exists dd pl,
    dac_descr_all w !! d = Some dd /\ pool dd = Some pl /\
    dmabuf dd = [nullptr; nullptr] /\ buffers_bound d N pl /\
    freeq pl = pool_buffers d N /\ readyq pl = [].

(** Free queue, ready queue and in-flight slots partition the buffers. *)
Definition three_way_partition (d N : nat) (w : world) : Prop :=
  exists dd pl,
    dac_descr_all w !! d = Some dd /\ pool dd = Some pl /\
    NoDup (freeq pl ++ readyq pl ++ in_flight dd) /\
    (forall b, b ∈ pool_buffers d N <->
               b ∈ freeq pl ++ readyq pl ++ in_flight dd) /\
    (length (freeq pl) + length (readyq pl) + length (in_flight dd))%nat = N.

(** Free queue, ready queue, in-flight slots and the buffers that the
    application holds partition the buffers. *)
Definition four_way_partition (d N : nat) (w : world) (held : list bufptr)
  : Prop :=
  exists dd pl,
    dac_descr_all w !! d = Some dd /\ pool dd = Some pl /\
    NoDup (freeq pl ++ readyq pl ++ in_flight dd ++ held) /\
    (forall b, b ∈ pool_buffers d N <->
               b ∈ freeq pl ++ readyq pl ++ in_flight dd ++ held) /\
    (length (freeq pl) + length (readyq pl) + length (in_flight dd)
     + length held)%nat = N.

(** The invariant of a channel with a pool of [N] buffers, [held] being
    the buffers that the application acquired and has not given back. *)
Definition owned (d N : nat) (w : world) (held : list bufptr) : Prop :=
  exists dd pl,
    dac_descr_all w !! d = Some dd /\ pool dd = Some pl /\
    length (dmabuf dd) = 2%nat /\ buffers_bound d N pl /\
    freeq pl ++ readyq pl ++ in_flight dd ++ held ≡ₚ pool_buffers d N.

(** The state [w] after descriptor [d] became [dd] and the HAL calls [evs]
    were made. *)
Definition at_descr (d : nat) (dd : dac_descr_t) (evs : list hal_call)
    (w : world) : world :=
  mkWorld (<[d := dd]> (dac_descr_all w)) (NULLBUF_obj w) (hal w ++ evs)
    (mem w).

(** The pool after [release ()] of its buffer [b]. *)
Definition released (pl : DMABufferPool) (b : bufptr) : DMABufferPool :=
  match b, buffers pl with
  | bufat _ i, Some bs =>
      match bs !! i with
      | Some o =>
          mkDMABufferPool (freeq pl ++ [b]) (readyq pl)
            (Some (<[i := DMABuffer_clrflags o 4294967295]> bs)) (pool_mem pl)
      | None => pl
      end
  | _, _ => pl
  end.

Section Steps.
Context `{Platform}.

(** The descriptor that [AdvancedDAC::begin] resolves for the first pin
    of the driver object: nothing when the channel number of the pin is
    not an index of [DAC_CHAN_LUT], the read being outside the table.
    Both channels of the table have a descriptor, so the null descriptor
    is never resolved. *)
Definition resolved (self : AdvancedDAC) : option (option nat) :=
  let* pin0 := dac_pins self !! 0%nat in
  let* chan :=
    lut_at DAC_CHAN_LUT (STM_PIN_CHANNEL (pinmap_function pin0) - 1) in
  Some (dac_descr_get chan).

(** The operations on the channel of descriptor [d], through the driver
    object [self]; beside the state, the buffers that the application
    holds: an acquired buffer is held until it is submitted or released. *)
Inductive step (self : AdvancedDAC) (d : nat)
  : world * list bufptr -> world * list bufptr -> Prop :=
| step_acquire w h b w' :
    AdvancedDAC_dequeue self w = Some (Acquired b w') ->
    step self d (w, h) (w', b :: h)
| step_submit w h b w' :
    b ∈ h ->
    AdvancedDAC_write self b w = Some w' ->
    step self d (w, h) (w', filter (fun x => x <> b) h)
| step_release w h b w' :
    b ∈ h ->
    DMABuffer_release b w = Some w' ->
    step self d (w, h) (w', filter (fun x => x <> b) h)
| step_complete w h chan ct w' :
    dac_descr_get chan = Some d ->
    DAC_DMAConvCplt d chan ct w = Some w' ->
    step self d (w, h) (w', h)
| step_stop w h w' :
    AdvancedDAC_stop self w = Some (1, w') ->
    step self d (w, h) (w', h).

Definition reachable (self : AdvancedDAC) (d : nat) (w0 : world)
    (c : world * list bufptr) : Prop :=
  rtc (step self d) (w0, []) c.

End Steps.

(** ** A platform, for running the model

    The constants have the values of the STM32H7 HAL; the pin map knows
    the two DAC pins, [PA_4] (channel 1) and [PA_5] (channel 2), and gives
    [NC] for every other pin. *)
Definition stm32h7 : Platform := {|
  Sample := uint16_t;
  DAC_CHANNEL_1 := 0;
  DAC_CHANNEL_2 := 16;
  DAC_ALIGN_8B_R := 8;
  DAC_ALIGN_12B_R := 0;
  pinmap_function := fun pin =>
    if pin =? 4 then Z.shiftl 1 17
    else if pin =? 5 then Z.shiftl 2 17
    else 4294967295;
  STM_PIN_CHANNEL := fun f => Z.land (Z.shiftr f 17) 31
|}.

Module Scenario.

#[local] Existing Instance stm32h7.

(** A [::malloc] that gives every request of at most 64 KiB the block
    at [4098]. *)
Definition heap_malloc (n : Z) : Z := if n <=? 65536 then 4098 else 0.

Definition env : alloc_env := mk_alloc_env true true heap_malloc.

(** An allocator out of memory. *)
Definition env_oom : alloc_env := mk_alloc_env true true (fun _ => 0).

(** [AdvancedDAC dac (A12)], before [begin]. *)
Definition dac0 : AdvancedDAC := mkAdvancedDAC None 1 [4].

Definition began (env : alloc_env) (n_buffers : Z)
  : option (Z * AdvancedDAC * world) :=
  AdvancedDAC_begin dac0 1 1000 8 n_buffers env world_init.

(** The driver object and the state after [dac.begin (1, 1000, 8, 4)]. *)
Definition dac1 : AdvancedDAC := mkAdvancedDAC (Some 0%nat) 1 [4].

Definition w_begun : world :=
  match began env 4 with
  | Some (_, _, w) => w
  | None => world_init
  end.

(** [dac.write (dac.dequeue ())] *)
Definition acquire_submit (w : world) : option world :=
  match AdvancedDAC_dequeue dac1 w with
  | Some (Acquired b w') => AdvancedDAC_write dac1 b w'
  | _ => None
  end.

Fixpoint acquire_submit_n (n : nat) (w : world) : option world :=
  match n with
  | O => Some w
  | S n' =>
      let* w := acquire_submit w in
      acquire_submit_n n' w
  end.

(** The buffers of the pool of [w_begun]. *)
Definition four_buffers : list DMABuffer :=
  map (fun a => mkDMABuffer (Some 0%nat) 8 1 a 0 0) [4128; 4160; 4192; 4224].

(** A state with a transfer in flight on channel 1: buffers 0 and 1 in
    the in-flight slots, buffer 2 ready, buffer 3 free. *)
Definition w_streaming : world :=
  mkWorld
    [ mk_dac_descr 0 0
        (Some (mkDMABufferPool [bufat 0 3] [bufat 0 2] (Some four_buffers)
                 4128))
        [bufat 0 0; bufat 0 1];
      mk_dac_descr 16 0 None [nullptr; nullptr] ]
    DMABuffer_default [] no_memory.

Definition or_else (o : option world) (w : world) : world :=
  match o with Some w' => w' | None => w end.

(** [w_begun] after one [dac.dequeue ()]. *)
Definition w_acquired : world :=
  match AdvancedDAC_dequeue dac1 w_begun with
  | Some (Acquired _ w) => w
  | _ => w_begun
  end.



End Scenario.

(** ** A channel whose pool has no memory *)

(** The state of descriptor [d] when the pool bound to it was constructed
    without memory: no buffer in either queue or in a slot. *)
Definition pool_without_memory (d : nat) (w : world) : Prop :=
  exists dd pl,
    dac_descr_all w !! d = Some dd /\ pool dd = Some pl /\
    freeq pl = [] /\ readyq pl = [] /\ dmabuf dd = [nullptr; nullptr].

(** What the operations on the channel of descriptor [d] may change
    between [w] and [w']: the pool and the slots of [d], and the log of the
    HAL, which only grows. *)
Definition within_channel (d : nat) (w w' : world) : Prop :=
  (forall d', d' <> d -> dac_descr_all w' !! d' = dac_descr_all w !! d') /\
  mem w' = mem w /\ NULLBUF_obj w' = NULLBUF_obj w /\
  (exists evs, hal w' = hal w ++ evs) /\
  (forall dd, dac_descr_all w !! d = Some dd ->
     exists dd', dac_descr_all w' !! d = Some dd' /\
                 channel dd' = channel dd /\ resolution dd' = resolution dd).


Module Cases.

#[local] Existing Instance stm32h7.

(** The state after [dac.begin (1, 1000, 8, 4)] with [::malloc] out of
  memory. *)
Definition w_no_memory : world :=
match Scenario.began Scenario.env_oom 4 with
| Some (_, _, w) => w
| None => world_init
end.


(** [w_begun] after three rounds of [dac.write (dac.dequeue ())]. *)
Definition w_three_ready : world :=
Scenario.or_else (Scenario.acquire_submit_n 3 Scenario.w_begun)
  Scenario.w_begun.


(** A buffer with both flags set. *)
Definition flagged : DMABuffer := mkDMABuffer (Some 0%nat) 8 1 4128 7 3.

End Cases.

(** * Proofs *)

(** ** Arithmetic of [size_t] *)

Lemma size_t_small z : 0 <= z < SIZE_MAX -> size_t z = z.
Proof. intros Hz. unfold size_t. apply Z.mod_small. exact Hz. Qed.

Lemma size_t_range z : 0 <= size_t z < SIZE_MAX.
Proof. unfold size_t, SIZE_MAX. apply Z.mod_pos_bound. lia. Qed.

Lemma size_t_land z : size_t z = Z.land z (Z.ones 32).
Proof. unfold size_t, SIZE_MAX. rewrite Z.land_ones by lia. reflexivity. Qed.

Lemma pow2_bounds k : 1 <= k < 32 -> 2 <= 2 ^ k <= 2 ^ 31.
Proof.
  intros Hk. split.
  - change 2 with (2 ^ 1) at 1. apply Z.pow_le_mono_r; lia.
  - apply Z.pow_le_mono_r; lia.
Qed.

(** [x & ~(A-1)] clears the low bits of [x] when [A] is a power of two. *)
Lemma land_mask_pow2 k x :
  0 <= k <= 32 -> 0 <= x < SIZE_MAX ->
  Z.land x (AlignedAlloc.mask (2 ^ k)) = x - x mod 2 ^ k.
Proof.
  intros Hk Hx. unfold AlignedAlloc.mask.
  assert (H2k : 0 < 2 ^ k <= 2 ^ 32).
  { split; [apply Z.pow_pos_nonneg; lia | apply Z.pow_le_mono_r; lia]. }
  rewrite (size_t_small (2 ^ k - 1)) by (unfold SIZE_MAX; lia).
  rewrite size_t_land.
  replace (2 ^ k - 1) with (Z.ones k) by (rewrite Z.ones_equiv; lia).
  rewrite (Z.land_comm (Z.lnot _)), Z.land_assoc.
  rewrite <- size_t_land, (size_t_small x) by exact Hx.
  rewrite <- Z.ldiff_land.
  rewrite Z.ldiff_ones_r by lia.
  rewrite Z.shiftr_div_pow2, Z.shiftl_mul_pow2 by lia.
  pose proof (Z.div_mod x (2 ^ k)). lia.
Qed.

Lemma offset_pow2 k : 1 <= k < 32 -> AlignedAlloc.offset (2 ^ k) = 2 ^ k + 3.
Proof.
  intros Hk. pose proof (pow2_bounds k Hk) as Hb.
  unfold AlignedAlloc.offset, sizeof_voidp.
  rewrite size_t_small; [lia | unfold SIZE_MAX; lia].
Qed.

Lemma pow2_even k : 1 <= k -> 2 ^ k mod 2 = 0.
Proof.
  intros Hk. replace k with (1 + (k - 1)) by lia.
  rewrite Z.pow_add_r by lia. change (2 ^ 1) with 2.
  rewrite Z.mul_comm. apply Z.mod_mul. lia.
Qed.

(** The pointer that [malloc] derives from a block at [stashed]. *)
Lemma aligned_pointer k stashed n :
  1 <= k < 32 -> 0 <= n -> valid_block stashed (n + (2 ^ k + 3)) ->
  let ptr := Z.land (size_t (stashed + (2 ^ k + 3)))
               (AlignedAlloc.mask (2 ^ k)) in
  ptr mod 2 ^ k = 0 /\ stashed + sizeof_voidp <= ptr /\
  ptr + n <= stashed + (n + (2 ^ k + 3)) /\ 0 < ptr < SIZE_MAX.
Proof.
  intros Hk Hn [Hpos Hend] ptr. subst ptr.
  pose proof (pow2_bounds k Hk) as Hb.
  rewrite size_t_small by lia.
  rewrite land_mask_pow2 by lia.
  set (x := stashed + (2 ^ k + 3)).
  pose proof (Z.mod_pos_bound x (2 ^ k) ltac:(lia)) as Hm.
  unfold sizeof_voidp. repeat split; try lia.
  rewrite Zminus_mod, Z.mod_mod, Z.sub_diag by lia. apply Z.mod_0_l. lia.
Qed.

(** ** [AlignedAlloc<A>::malloc] *)

Lemma heap_malloc_sound : sound_allocator Scenario.heap_malloc.
Proof.
  intros n. unfold Scenario.heap_malloc.
  destruct (Z.leb_spec n 65536) as [Hn | Hn].
  - right. split; unfold SIZE_MAX; lia.
  - left. reflexivity.
Qed.




(** What [malloc] gives for an alignment that is a power of two. *)
Lemma AlignedAlloc_malloc_pow2 k sys size m :
  1 <= k < 32 -> sound_allocator sys ->
  0 <= size -> size + AlignedAlloc.offset (2 ^ k) < SIZE_MAX ->
  let stashed := sys (size + AlignedAlloc.offset (2 ^ k)) in
  let ptr := Z.land (size_t (stashed + AlignedAlloc.offset (2 ^ k)))
               (AlignedAlloc.mask (2 ^ k)) in
  (stashed = 0 /\ AlignedAlloc.malloc (2 ^ k) sys size m = (0, m)) \/
  (valid_block stashed (size + AlignedAlloc.offset (2 ^ k)) /\
   AlignedAlloc.malloc (2 ^ k) sys size m
   = (ptr, store m (ptr - sizeof_voidp) stashed) /\
   ptr mod 2 ^ k = 0 /\ stashed + sizeof_voidp <= ptr /\
   ptr + size <= stashed + (size + AlignedAlloc.offset (2 ^ k)) /\
   0 < ptr < SIZE_MAX).
Proof.
  intros Hk Hsys Hsize Hfit. cbv zeta.
  pose proof (pow2_bounds k Hk) as Hb.
  unfold AlignedAlloc.malloc.
  rewrite (pow2_even k) by lia. cbn [Z.eqb negb].
  rewrite offset_pow2 in * by exact Hk.
  rewrite (size_t_small (size + _)) by lia.
  destruct (Hsys (size + (2 ^ k + 3))) as [Hnull | Hblock].
  - left. rewrite Hnull. auto.
  - right. pose proof Hblock as [Hpos _].
    destruct (Z.eqb_spec (sys (size + (2 ^ k + 3))) 0) as [E | E]; [lia |].
    destruct (aligned_pointer k _ size Hk Hsize Hblock)
      as (Hal & Hlo & Hhi & Hnz).
    auto 10.
Qed.



(** ** [DMABuffer::operator[]] *)

Lemma cast_minus_one T :
  0 < bits T -> cast T (-1) = if signed T then -1 else max_value T.
Proof.
  intros HT. unfold cast, max_value.
  assert (Hp : 0 < 2 ^ (bits T - 1)) by (apply Z.pow_pos_nonneg; lia).
  assert (Hd : 2 ^ bits T = 2 * 2 ^ (bits T - 1)).
  { replace (bits T) with (1 + (bits T - 1)) at 1 by lia.
    rewrite Z.pow_add_r by lia. reflexivity. }
  destruct (signed T).
  - rewrite Z.mod_small by lia. lia.
  - replace (-1) with (2 ^ bits T - 1 + -1 * 2 ^ bits T) by lia.
    rewrite Z.mod_add by lia. apply Z.mod_small. lia.
Qed.

Lemma DMABuffer_size_no_wrap b :
  0 <= buf_n_samples b * buf_n_channels b < SIZE_MAX ->
  DMABuffer_size b = buf_n_samples b * buf_n_channels b.
Proof. intros Hb. unfold DMABuffer_size. apply size_t_small. exact Hb. Qed.

(** C8: the indexed read [b[i]] gives the sentinel, [-1] converted to [T]
    (the largest value of an unsigned [T], [-1] for a signed one), when the
    buffer has no memory or [i] is not below [size ()]; otherwise it gives
    the [i]-th element of the buffer's memory, and reads nothing else: it
    is defined whenever the [size ()] elements of the buffer are. *)
Theorem DMABuffer_index_spec T b i m :
  0 < bits T -> 0 <= i ->
  let sentinel := if signed T then -1 else max_value T in
  (buf_ptr b = 0 \/ DMABuffer_size b <= i ->
   DMABuffer_index T b i m = Some sentinel) /\
  (buf_ptr b <> 0 -> i < DMABuffer_size b ->
   DMABuffer_index T b i m = m (buf_ptr b + i * sizeof T)) /\
  ((forall j, 0 <= j < DMABuffer_size b ->
              is_Some (m (buf_ptr b + j * sizeof T))) ->
   is_Some (DMABuffer_index T b i m)) /\
  (0 <= buf_n_samples b * buf_n_channels b < SIZE_MAX ->
   DMABuffer_size b = buf_n_samples b * buf_n_channels b).
Proof.
  intros HT Hi sentinel. subst sentinel.
  rewrite <- (cast_minus_one T HT).
  unfold DMABuffer_index, DMABuffer_data.
  destruct (Z.eqb_spec (buf_ptr b) 0) as [Hp | Hp];
    destruct (Z.ltb_spec i (DMABuffer_size b)) as [Hlt | Hge]; cbn [negb andb].
  all: repeat split; try (intros; apply DMABuffer_size_no_wrap; assumption).
  all: try (intros; reflexivity); try (intros; eexists; reflexivity).
  all: try (intros; lia); try (intros [? | ?]; lia).
  intros Hall. apply Hall. lia.
Qed.

Lemma DMABuffer_index_spec_witness :
  let b := mkDMABuffer (Some 0%nat) 8 1 4128 0 0 in
  let m := store no_memory 4134 42 in
  (forall j, 0 <= j < 8 -> j <> 3 ->
     DMABuffer_index uint16_t b j m = None) /\
  DMABuffer_index uint16_t b 3 m = Some 42 /\
  DMABuffer_index uint16_t b 8 m = Some 65535 /\
  DMABuffer_index int16_t DMABuffer_default 0 m = Some (-1).
Proof.
  cbv zeta. split; [| split; [| split]].
  - intros j Hj Hne.
    destruct (DMABuffer_index_spec uint16_t (mkDMABuffer (Some 0%nat) 8 1 4128 0 0)
                j (store no_memory 4134 42) ltac:(vm_compute; reflexivity)
                ltac:(lia)) as (_ & Hin & _).
    rewrite Hin;
      [| cbn; lia
       | replace (DMABuffer_size _) with 8 by (vm_compute; reflexivity); lia].
    unfold store, no_memory. cbn [buf_ptr].
    change (sizeof uint16_t) with 2.
    destruct (Z.eqb_spec (4128 + j * 2) 4134); [lia | reflexivity].
  - destruct (DMABuffer_index_spec uint16_t (mkDMABuffer (Some 0%nat) 8 1 4128 0 0)
                3 (store no_memory 4134 42) ltac:(vm_compute; reflexivity)
                ltac:(lia)) as (_ & Hin & _).
    rewrite Hin; [reflexivity | cbn; lia | vm_compute; reflexivity].
  - destruct (DMABuffer_index_spec uint16_t (mkDMABuffer (Some 0%nat) 8 1 4128 0 0)
                8 (store no_memory 4134 42) ltac:(vm_compute; reflexivity)
                ltac:(lia)) as (Hout & _).
    rewrite Hout; [reflexivity | right; vm_compute; congruence].
  - destruct (DMABuffer_index_spec int16_t DMABuffer_default
                0 (store no_memory 4134 42) ltac:(vm_compute; reflexivity)
                ltac:(lia)) as (Hout & _).
    rewrite Hout; [reflexivity | left; reflexivity].
Defined.

(** ** The state seen from one descriptor *)

#[local] Arguments at_descr : simpl never.

Lemma at_descr_id d dd w :
  dac_descr_all w !! d = Some dd -> at_descr d dd [] w = w.
Proof.
  intros Hd. unfold at_descr. rewrite list_insert_id by exact Hd.
  rewrite app_nil_r. destruct w; reflexivity.
Qed.

Section Focus.
Variables (d : nat) (w : world).
Hypothesis Hd : (d < length (dac_descr_all w))%nat.

Lemma at_descr_lookup dd evs :
  dac_descr_all (at_descr d dd evs w) !! d = Some dd.
Proof. unfold at_descr. cbn. apply list_lookup_insert_eq. exact Hd. Qed.

Lemma at_descr_set dd dd' evs :
  set_descr d dd' (at_descr d dd evs w) = at_descr d dd' evs w.
Proof.
  unfold set_descr, at_descr. cbn. rewrite list_insert_insert_eq.
  reflexivity.
Qed.

Lemma at_descr_log dd evs c :
  log c (at_descr d dd evs w) = at_descr d dd (evs ++ [c]) w.
Proof. unfold log, at_descr. cbn. rewrite <- app_assoc. reflexivity. Qed.

Lemma at_descr_get_pool dd evs :
  get_pool (at_descr d dd evs w) d = pool dd.
Proof. unfold get_pool. rewrite at_descr_lookup. reflexivity. Qed.

Lemma at_descr_set_pool dd evs pl :
  set_pool d pl (at_descr d dd evs w)
  = Some (at_descr d (with_pool dd (Some pl)) evs w).
Proof.
  unfold set_pool. rewrite at_descr_lookup, at_descr_set. reflexivity.
Qed.

Lemma at_descr_get_dmabuf dd evs i :
  get_dmabuf (at_descr d dd evs w) d i = dmabuf dd !! i.
Proof. unfold get_dmabuf. rewrite at_descr_lookup. reflexivity. Qed.

Lemma at_descr_set_dmabuf dd evs i b :
  set_dmabuf d i b (at_descr d dd evs w)
  = Some (at_descr d (with_dmabuf dd (<[i := b]> (dmabuf dd))) evs w).
Proof.
  unfold set_dmabuf. rewrite at_descr_lookup, at_descr_set. reflexivity.
Qed.

Section WithPool.
Variables (dd : dac_descr_t) (pl : DMABufferPool) (evs : list hal_call).
Hypothesis Hpl : pool dd = Some pl.

Lemma at_descr_deref i bs :
  buffers pl = Some bs ->
  deref (at_descr d dd evs w) (bufat d i) = bs !! i.
Proof.
  intros Hbs. unfold deref. rewrite at_descr_get_pool, Hpl, Hbs.
  reflexivity.
Qed.

Lemma at_descr_readable :
  DMABufferPool_readable d (at_descr d dd evs w)
  = Some (negb (LLQueue_empty (readyq pl))).
Proof.
  unfold DMABufferPool_readable. rewrite at_descr_get_pool, Hpl.
  reflexivity.
Qed.

Lemma at_descr_writable :
  DMABufferPool_writable d (at_descr d dd evs w)
  = Some (negb (LLQueue_empty (freeq pl))).
Proof.
  unfold DMABufferPool_writable. rewrite at_descr_get_pool, Hpl.
  reflexivity.
Qed.

Lemma at_descr_enqueue b :
  DMABufferPool_enqueue d b (at_descr d dd evs w)
  = Some (at_descr d
            (with_pool dd (Some (with_readyq pl (readyq pl ++ [b]))))
            evs w).
Proof.
  unfold DMABufferPool_enqueue. rewrite at_descr_get_pool, Hpl.
  apply at_descr_set_pool.
Qed.

Lemma at_descr_dequeue b q :
  readyq pl = b :: q ->
  DMABufferPool_dequeue d (at_descr d dd evs w)
  = Some (b, at_descr d (with_pool dd (Some (with_readyq pl q))) evs w).
Proof.
  intros Hq. unfold DMABufferPool_dequeue.
  rewrite at_descr_get_pool, Hpl, Hq. cbn [LLQueue_pop].
  rewrite at_descr_set_pool. reflexivity.
Qed.

Lemma at_descr_allocate b q :
  freeq pl = b :: q ->
  DMABufferPool_allocate d (at_descr d dd evs w)
  = Some (b, at_descr d (with_pool dd (Some (with_freeq pl q))) evs w).
Proof.
  intros Hq. unfold DMABufferPool_allocate.
  rewrite at_descr_get_pool, Hpl, Hq. cbn [LLQueue_pop].
  rewrite at_descr_set_pool. reflexivity.
Qed.

(** [release ()] of a buffer of the pool, bound to memory: its flags
    are cleared and it is pushed on the free queue. *)
Lemma at_descr_release i bs o :
  buffers pl = Some bs -> bs !! i = Some o ->
  buf_pool o = Some d -> buf_ptr o <> 0 ->
  DMABuffer_release (bufat d i) (at_descr d dd evs w)
  = Some (at_descr d
            (with_pool dd
               (Some (mkDMABufferPool (freeq pl ++ [bufat d i]) (readyq pl)
                        (Some (<[i := DMABuffer_clrflags o 4294967295]> bs))
                        (pool_mem pl))))
            evs w).
Proof.
  intros Hbs Hi Hpool Hptr. unfold DMABuffer_release.
  rewrite (at_descr_deref i bs Hbs), Hi, Hpool.
  destruct (Z.eqb_spec (buf_ptr o) 0) as [E | _]; [contradiction |].
  cbn [negb]. unfold DMABufferPool_release.
  rewrite (at_descr_deref i bs Hbs), Hi.
  unfold assign. rewrite at_descr_get_pool, Hpl, Hbs, Hi.
  rewrite at_descr_set_pool, at_descr_get_pool. cbn [with_pool pool].
  rewrite at_descr_set_pool. reflexivity.
Qed.

End WithPool.
End Focus.

(** ** Buffers of a pool *)

Lemma elem_of_pool_buffers d N b :
  b ∈ pool_buffers d N <-> exists i, b = bufat d i /\ (i < N)%nat.
Proof.
  unfold pool_buffers. rewrite list_elem_of_fmap. split.
  - intros (i & -> & Hi). apply elem_of_seq in Hi. exists i. split; [reflexivity | lia].
  - intros (i & -> & Hi). exists i. split; [reflexivity |].
    apply elem_of_seq. lia.
Qed.

Lemma NoDup_pool_buffers d N : NoDup (pool_buffers d N).
Proof.
  unfold pool_buffers. apply NoDup_fmap_2; [| apply NoDup_seq].
  intros i j Hij. congruence.
Qed.

Lemma length_pool_buffers d N : length (pool_buffers d N) = N.
Proof. unfold pool_buffers. rewrite length_map, length_seq. reflexivity. Qed.

Lemma buffers_bound_lookup d N pl i :
  buffers_bound d N pl -> (i < N)%nat ->
  exists bs o, buffers pl = Some bs /\ bs !! i = Some o /\
               buf_pool o = Some d /\ buf_ptr o <> 0.
Proof.
  intros (bs & Hbs & Hlen & Hall) Hi.
  destruct (lookup_lt_is_Some_2 bs i) as [o Ho]; [lia |].
  exists bs, o. split; [exact Hbs | split; [exact Ho |]].
  rewrite Forall_lookup in Hall. exact (Hall i o Ho).
Qed.

Lemma released_bound d N pl b :
  buffers_bound d N pl -> buffers_bound d N (released pl b).
Proof.
  intros Hb. pose proof Hb as (bs & Hbs & Hlen & Hall).
  unfold released. destruct b as [| | p i]; try exact Hb.
  rewrite Hbs. destruct (bs !! i) as [o |] eqn:Ho; [| exact Hb].
  eexists. split; [reflexivity |]. split.
  - rewrite length_insert. exact Hlen.
  - apply Forall_insert; [exact Hall |].
    rewrite Forall_lookup in Hall. exact (Hall i o Ho).
Qed.

Lemma fold_released_bound d N bs pl :
  buffers_bound d N pl -> buffers_bound d N (fold_left released bs pl).
Proof.
  revert pl. induction bs as [| b bs IH]; intros pl Hb; [exact Hb |].
  cbn. apply IH, released_bound, Hb.
Qed.

Lemma released_queues d N pl b :
  buffers_bound d N pl -> b ∈ pool_buffers d N ->
  freeq (released pl b) = freeq pl ++ [b] /\
  readyq (released pl b) = readyq pl /\
  pool_mem (released pl b) = pool_mem pl.
Proof.
  intros Hb Hin. apply elem_of_pool_buffers in Hin as (i & -> & Hi).
  destruct (buffers_bound_lookup d N pl i Hb Hi) as (bs & o & Hbs & Ho & _).
  unfold released. rewrite Hbs, Ho. cbn. auto.
Qed.

Lemma fold_released_queues d N bs pl :
  buffers_bound d N pl -> Forall (fun b => b ∈ pool_buffers d N) bs ->
  freeq (fold_left released bs pl) = freeq pl ++ bs /\
  readyq (fold_left released bs pl) = readyq pl /\
  pool_mem (fold_left released bs pl) = pool_mem pl.
Proof.
  revert pl. induction bs as [| b bs IH]; intros pl Hb Hall.
  - cbn. rewrite app_nil_r. auto.
  - apply Forall_cons in Hall as [Hin Hall]. cbn.
    destruct (released_queues d N pl b Hb Hin) as (Hf & Hr & Hm).
    destruct (IH (released pl b) (released_bound d N pl b Hb) Hall)
      as (Hf' & Hr' & Hm').
    rewrite Hf', Hr', Hm', Hf, Hr, Hm, <- app_assoc. auto.
Qed.

Section FocusRelease.
Variables (d N : nat) (w : world).
Hypothesis Hd : (d < length (dac_descr_all w))%nat.

Lemma at_descr_release_bound dd pl evs b :
  pool dd = Some pl -> buffers_bound d N pl -> b ∈ pool_buffers d N ->
  DMABuffer_release b (at_descr d dd evs w)
  = Some (at_descr d (with_pool dd (Some (released pl b))) evs w).
Proof.
  intros Hpl Hb Hin. apply elem_of_pool_buffers in Hin as (i & -> & Hi).
  destruct (buffers_bound_lookup d N pl i Hb Hi)
    as (bs & o & Hbs & Ho & Hpool & Hptr).
  rewrite (at_descr_release d w Hd dd pl evs Hpl i bs o Hbs Ho Hpool Hptr).
  unfold released. rewrite Hbs, Ho. reflexivity.
Qed.

Lemma at_descr_deref_bound dd pl evs b :
  pool dd = Some pl -> buffers_bound d N pl -> b ∈ pool_buffers d N ->
  exists o, deref (at_descr d dd evs w) b = Some o /\
            buf_pool o = Some d /\ buf_ptr o <> 0.
Proof.
  intros Hpl Hb Hin. apply elem_of_pool_buffers in Hin as (i & -> & Hi).
  destruct (buffers_bound_lookup d N pl i Hb Hi)
    as (bs & o & Hbs & Ho & Hpool & Hptr).
  exists o. rewrite (at_descr_deref d w Hd dd pl evs Hpl i bs Hbs). auto.
Qed.

End FocusRelease.

(** ** The driver on the state of one descriptor *)

Section DriverFocus.
Context `{Platform}.

Lemma b2z_not_above_two r : (Z.b2z r >? 2) = false.
Proof. destruct r; reflexivity. Qed.

(** [readable ()] is a [bool]: the test [readable () > 2] of [write]
    never holds, and [write] is its first two statements. *)
Lemma AdvancedDAC_write_eq self buf w :
  AdvancedDAC_write self buf w =
  (let* w1 := DMABuffer_flush Sample buf w in
   let* d := descr self in
   let* w2 := DMABufferPool_enqueue d buf w1 in
   let* _ := get_dmabuf w2 d 0 in
   let* _ := DMABufferPool_readable d w2 in
   Some w2).
Proof.
  unfold AdvancedDAC_write.
  destruct (DMABuffer_flush Sample buf w) as [w1 |]; [| reflexivity].
  destruct (descr self) as [d |]; [| reflexivity].
  destruct (DMABufferPool_enqueue d buf w1) as [w2 |]; [| reflexivity].
  destruct (get_dmabuf w2 d 0) as [b0 |]; [| reflexivity].
  destruct (DMABufferPool_readable d w2) as [r |]; [| reflexivity].
  rewrite b2z_not_above_two, andb_false_r. reflexivity.
Qed.

Variables (d N : nat) (w : world).
Hypothesis Hd : (d < length (dac_descr_all w))%nat.

Variables (dd : dac_descr_t) (pl : DMABufferPool) (evs : list hal_call).
Hypothesis Hpl : pool dd = Some pl.
Hypothesis Hbound : buffers_bound d N pl.

Lemma at_descr_flush T b :
  b ∈ pool_buffers d N ->
  exists o, deref (at_descr d dd evs w) b = Some o /\
    DMABuffer_flush T b (at_descr d dd evs w)
    = Some (at_descr d dd
              (evs ++ [SCB_CleanDCache_by_Addr (DMABuffer_data o)
                         (DMABuffer_bytes T o)]) w).
Proof.
  intros Hin.
  destruct (at_descr_deref_bound d N w Hd dd pl evs b Hpl Hbound Hin)
    as (o & Ho & _ & Hptr).
  exists o. split; [exact Ho |]. unfold DMABuffer_flush. rewrite Ho.
  destruct (Z.eqb_spec (buf_ptr o) 0) as [E | _]; [contradiction |].
  cbn [negb]. rewrite at_descr_log. reflexivity.
Qed.

Lemma at_descr_write self b :
  descr self = Some d -> b ∈ pool_buffers d N ->
  length (dmabuf dd) = 2%nat ->
  exists o, deref (at_descr d dd evs w) b = Some o /\
    AdvancedDAC_write self b (at_descr d dd evs w)
    = Some (at_descr d
              (with_pool dd (Some (with_readyq pl (readyq pl ++ [b]))))
              (evs ++ [SCB_CleanDCache_by_Addr (DMABuffer_data o)
                         (DMABuffer_bytes Sample o)]) w).
Proof.
  intros Hself Hin Hlen.
  destruct (at_descr_flush Sample b Hin) as (o & Ho & Hflush).
  exists o. split; [exact Ho |].
  rewrite AdvancedDAC_write_eq, Hflush, Hself.
  rewrite (at_descr_enqueue d w Hd dd pl _ Hpl).
  rewrite (at_descr_get_dmabuf d w Hd). cbn [with_pool dmabuf].
  destruct (dmabuf dd) as [| s0 ?]; [discriminate Hlen |]. cbn [lookup list_lookup].
  erewrite (at_descr_readable d w Hd); [reflexivity | reflexivity].
Qed.

Lemma at_descr_dequeue_acquired self b q :
  descr self = Some d -> freeq pl = b :: q -> b ∈ pool_buffers d N ->
  AdvancedDAC_dequeue self (at_descr d dd evs w)
  = Some (Acquired b
            (at_descr d (with_pool dd (Some (with_freeq pl q))) evs w)).
Proof.
  intros Hself Hq Hin. unfold AdvancedDAC_dequeue, AdvancedDAC_available.
  rewrite Hself, (at_descr_writable d w Hd dd pl evs Hpl), Hq.
  cbn [LLQueue_empty negb].
  rewrite (at_descr_allocate d w Hd dd pl evs Hpl b q Hq).
  destruct (at_descr_deref_bound d N w Hd
              (with_pool dd (Some (with_freeq pl q))) (with_freeq pl q)
              evs b eq_refl Hbound Hin) as (o & -> & _).
  reflexivity.
Qed.

Lemma at_descr_dequeue_suspended self :
  descr self = Some d -> freeq pl = [] ->
  AdvancedDAC_dequeue self (at_descr d dd evs w) = Some Suspended.
Proof.
  intros Hself Hq. unfold AdvancedDAC_dequeue, AdvancedDAC_available.
  rewrite Hself, (at_descr_writable d w Hd dd pl evs Hpl), Hq.
  reflexivity.
Qed.

(** One round of the loop of [dac_descr_deinit]. *)
Lemma deinit_loop_null i idx :
  dmabuf dd !! i = Some nullptr ->
  dac_descr_deinit_loop d (i :: idx) (at_descr d dd evs w)
  = dac_descr_deinit_loop d idx (at_descr d dd evs w).
Proof.
  intros Hi. cbn [dac_descr_deinit_loop].
  rewrite (at_descr_get_dmabuf d w Hd), Hi.
  rewrite bool_decide_false by (intros E; exact (E eq_refl)).
  reflexivity.
Qed.

Lemma deinit_loop_buffer i idx b :
  dmabuf dd !! i = Some b -> b ∈ pool_buffers d N ->
  dac_descr_deinit_loop d (i :: idx) (at_descr d dd evs w)
  = dac_descr_deinit_loop d idx
      (at_descr d
         (with_dmabuf (with_pool dd (Some (released pl b)))
            (<[i := nullptr]> (dmabuf dd))) evs w).
Proof.
  intros Hi Hin. cbn [dac_descr_deinit_loop].
  rewrite (at_descr_get_dmabuf d w Hd), Hi.
  rewrite bool_decide_true
    by (apply elem_of_pool_buffers in Hin as (j & -> & _); discriminate).
  rewrite (at_descr_release_bound d N w Hd dd pl evs b Hpl Hbound Hin).
  rewrite (at_descr_set_dmabuf d w Hd). reflexivity.
Qed.

End DriverFocus.

Section DriverDeinit.
Context `{Platform}.
Variables (d N : nat) (w : world).
Hypothesis Hd : (d < length (dac_descr_all w))%nat.

(** [dac_descr_deinit (descr, false)]: timer and transfer are stopped,
    the buffers in flight are released, the slots are cleared and the
    pool stays. *)
Lemma at_descr_deinit dd pl evs :
  pool dd = Some pl -> buffers_bound d N pl ->
  length (dmabuf dd) = 2%nat ->
  Forall (fun b => b ∈ pool_buffers d N) (in_flight dd) ->
  dac_descr_deinit (Some d) false (at_descr d dd evs w)
  = Some (at_descr d
            (with_dmabuf
               (with_pool dd (Some (fold_left released (in_flight dd) pl)))
               [nullptr; nullptr])
            (evs ++ [HAL_TIM_Base_Stop d; HAL_DAC_Stop_DMA d (channel dd)])
            w).
Proof.
  intros Hpl Hbound Hlen Hfl.
  destruct dd as [ch res p dm]. cbn in Hpl, Hlen. subst p.
  destruct dm as [| s0 [| s1 [| ? ?]]]; try discriminate Hlen. clear Hlen.
  unfold dac_descr_deinit. rewrite (at_descr_lookup d w Hd).
  rewrite !(at_descr_log d w), <- app_assoc. cbn [app channel].
  rewrite (at_descr_lookup d w Hd).
  cbn [dmabuf length seq]. unfold in_flight in *. cbn [dmabuf] in *.
  destruct (decide (s0 = nullptr)) as [-> | Hs0];
    destruct (decide (s1 = nullptr)) as [-> | Hs1].
  - rewrite (deinit_loop_null d w Hd _ _ 0%nat) by reflexivity.
    rewrite (deinit_loop_null d w Hd _ _ 1%nat) by reflexivity.
    reflexivity.
  - rewrite filter_cons_False in * by (intros E; exact (E eq_refl)).
    rewrite filter_cons_True in * by exact Hs1.
    apply Forall_cons in Hfl as [Hin1 _].
    rewrite (deinit_loop_null d w Hd _ _ 0%nat) by reflexivity.
    erewrite (deinit_loop_buffer d N w Hd);
      [| reflexivity | exact Hbound | reflexivity | exact Hin1].
    reflexivity.
  - rewrite filter_cons_True in * by exact Hs0.
    rewrite filter_cons_False in * by (intros E; exact (E eq_refl)).
    apply Forall_cons in Hfl as [Hin0 _].
    erewrite (deinit_loop_buffer d N w Hd);
      [| reflexivity | exact Hbound | reflexivity | exact Hin0].
    rewrite (deinit_loop_null d w Hd _ _ 1%nat) by reflexivity.
    reflexivity.
  - rewrite filter_cons_True in * by exact Hs0.
    rewrite filter_cons_True in * by exact Hs1.
    apply Forall_cons in Hfl as [Hin0 Hfl].
    apply Forall_cons in Hfl as [Hin1 _].
    erewrite (deinit_loop_buffer d N w Hd);
      [| reflexivity | exact Hbound | reflexivity | exact Hin0].
    erewrite (deinit_loop_buffer d N w Hd);
      [| reflexivity | apply released_bound; exact Hbound | reflexivity
       | exact Hin1].
    reflexivity.
Qed.

End DriverDeinit.

Section DriverComplete.
Context `{Platform}.
Variables (d N : nat) (w : world).
Hypothesis Hd : (d < length (dac_descr_all w))%nat.

Variables (dd : dac_descr_t) (pl : DMABufferPool) (evs : list hal_call).
Hypothesis Hpl : pool dd = Some pl.
Hypothesis Hbound : buffers_bound d N pl.

Variables (dma : nat) (chan : Z) (ct : bool).
Hypothesis Hchan : dac_descr_get chan = Some d.

(** The slot that the completion callback recycles. *)
Let slot : nat := if ct then 0%nat else 1%nat.

(** The callback with a buffer ready: the buffer of the slot is
    released and the next ready buffer takes the slot. *)
Lemma at_descr_complete_refill b b' q :
  readyq pl = b' :: q -> dmabuf dd !! slot = Some b ->
  b ∈ pool_buffers d N -> b' ∈ pool_buffers d N ->
  exists o',
    buf_ptr o' <> 0 /\
    DAC_DMAConvCplt dma chan ct (at_descr d dd evs w)
    = Some (at_descr d
              (with_dmabuf
                 (with_pool dd (Some (with_readyq (released pl b) q)))
                 (<[slot := b']> (dmabuf dd)))
              (evs ++ [hal_dma_update_memory dma (DMABuffer_data o')]) w).
Proof.
  intros Hq Hslot Hb Hb'.
  destruct (released_queues d N pl b Hbound Hb) as (_ & Hr & _).
  set (dd2 := with_dmabuf
                (with_pool dd (Some (with_readyq (released pl b) q)))
                (<[slot := b']> (dmabuf dd))).
  destruct (at_descr_deref_bound d N w Hd dd2 (with_readyq (released pl b) q)
              evs b' eq_refl (released_bound d N pl b Hbound) Hb')
    as (o' & Ho' & _ & Hptr).
  exists o'. split; [exact Hptr |].
  unfold DAC_DMAConvCplt. rewrite Hchan.
  rewrite (at_descr_readable d w Hd dd pl evs Hpl), Hq.
  cbn [LLQueue_empty negb]. fold slot.
  rewrite (at_descr_get_dmabuf d w Hd), Hslot.
  rewrite (at_descr_release_bound d N w Hd dd pl evs b Hpl Hbound Hb).
  erewrite (at_descr_dequeue d w Hd);
    [| reflexivity | rewrite Hr; exact Hq].
  rewrite (at_descr_set_dmabuf d w Hd). cbn [with_pool dmabuf].
  rewrite (at_descr_get_dmabuf d w Hd). cbn [with_dmabuf dmabuf].
  rewrite list_lookup_insert_eq by (apply lookup_lt_Some in Hslot; exact Hslot).
  change (with_dmabuf (with_pool (with_pool dd _) _) _) with dd2.
  rewrite Ho', (at_descr_log d w). reflexivity.
Qed.

(** With a buffer ready and nothing in the slot, the callback
    dereferences a null pointer. *)
Lemma at_descr_complete_null b' q :
  readyq pl = b' :: q -> dmabuf dd !! slot = Some nullptr ->
  DAC_DMAConvCplt dma chan ct (at_descr d dd evs w) = None.
Proof.
  intros Hq Hslot. unfold DAC_DMAConvCplt. rewrite Hchan.
  rewrite (at_descr_readable d w Hd dd pl evs Hpl), Hq.
  cbn [LLQueue_empty negb]. fold slot.
  rewrite (at_descr_get_dmabuf d w Hd), Hslot. reflexivity.
Qed.

(** The callback with no buffer ready. *)
Lemma at_descr_complete_underrun :
  readyq pl = [] ->
  DAC_DMAConvCplt dma chan ct (at_descr d dd evs w)
  = dac_descr_deinit (Some d) false (at_descr d dd evs w).
Proof.
  intros Hq. unfold DAC_DMAConvCplt. rewrite Hchan.
  rewrite (at_descr_readable d w Hd dd pl evs Hpl), Hq. reflexivity.
Qed.

End DriverComplete.

(** ** The ownership invariant *)

Lemma filter_ne_id (b : bufptr) (l : list bufptr) :
  b ∉ l -> filter (fun x => x <> b) l = l.
Proof.
  induction l as [| a l IH]; intros Hnot; [reflexivity |].
  apply not_elem_of_cons in Hnot as [Hne Hnot].
  rewrite filter_cons_True by congruence. rewrite IH by exact Hnot.
  reflexivity.
Qed.

(** Giving back one of the held buffers. *)
Lemma held_split (b : bufptr) (h : list bufptr) :
  NoDup h -> b ∈ h -> h ≡ₚ b :: filter (fun x => x <> b) h.
Proof.
  induction h as [| a h IH]; intros Hnd Hin.
  - apply elem_of_nil in Hin. contradiction.
  - apply NoDup_cons in Hnd as [Ha Hnd].
    destruct (decide (a = b)) as [-> | Hne].
    + rewrite filter_cons_False by (intros E; exact (E eq_refl)).
      rewrite filter_ne_id by exact Ha. reflexivity.
    + apply elem_of_cons in Hin as [-> | Hin]; [contradiction |].
      rewrite filter_cons_True by exact Hne.
      rewrite (IH Hnd Hin) at 1. apply Permutation_swap.
Qed.

Lemma owned_at_descr d N w dd pl evs h :
  (d < length (dac_descr_all w))%nat ->
  pool dd = Some pl -> length (dmabuf dd) = 2%nat ->
  buffers_bound d N pl ->
  freeq pl ++ readyq pl ++ in_flight dd ++ h ≡ₚ pool_buffers d N ->
  owned d N (at_descr d dd evs w) h.
Proof.
  intros Hd Hpl Hlen Hbound Hperm. exists dd, pl.
  rewrite (at_descr_lookup d w Hd). auto.
Qed.

Section OwnedFacts.
Variables (d N : nat) (dd : dac_descr_t) (pl : DMABufferPool).
Variable h : list bufptr.
Hypothesis Hperm :
  freeq pl ++ readyq pl ++ in_flight dd ++ h ≡ₚ pool_buffers d N.

Lemma owned_NoDup : NoDup (freeq pl ++ readyq pl ++ in_flight dd ++ h).
Proof. rewrite Hperm. apply NoDup_pool_buffers. Qed.

Lemma owned_free_in b : b ∈ freeq pl -> b ∈ pool_buffers d N.
Proof. intros Hin. rewrite <- Hperm. set_solver. Qed.

Lemma owned_ready_in b : b ∈ readyq pl -> b ∈ pool_buffers d N.
Proof. intros Hin. rewrite <- Hperm. set_solver. Qed.

Lemma owned_in_flight_in b : b ∈ in_flight dd -> b ∈ pool_buffers d N.
Proof. intros Hin. rewrite <- Hperm. set_solver. Qed.

Lemma owned_held_in b : b ∈ h -> b ∈ pool_buffers d N.
Proof. intros Hin. rewrite <- Hperm. set_solver. Qed.

Lemma owned_held_NoDup : NoDup h.
Proof.
  pose proof owned_NoDup as Hnd.
  apply NoDup_app in Hnd as (_ & _ & Hnd).
  apply NoDup_app in Hnd as (_ & _ & Hnd).
  apply NoDup_app in Hnd as (_ & _ & Hnd). exact Hnd.
Qed.

Lemma owned_in_flight_Forall :
  Forall (fun b => b ∈ pool_buffers d N) (in_flight dd).
Proof. apply Forall_forall. intros b Hb. apply owned_in_flight_in, Hb. Qed.

End OwnedFacts.

Section Preservation.
Context `{Platform}.
Variables (self : AdvancedDAC) (d N : nat).
Hypothesis Hself : descr self = Some d.

Lemma acquire_owned w h b w' :
  owned d N w h ->
  AdvancedDAC_dequeue self w = Some (Acquired b w') ->
  owned d N w' (b :: h).
Proof.
  intros (dd & pl & Hdd & Hpl & Hlen & Hbound & Hperm) Hop.
  pose proof (lookup_lt_Some _ _ _ Hdd) as Hd.
  rewrite <- (at_descr_id d dd w Hdd) in Hop.
  pose proof (owned_free_in d N dd pl h Hperm) as Hfree.
  destruct (freeq pl) as [| b0 q] eqn:Hq.
  - rewrite (at_descr_dequeue_suspended d w Hd dd pl [] Hpl self Hself Hq)
      in Hop. discriminate Hop.
  - assert (Hin : b0 ∈ pool_buffers d N) by (apply Hfree; left).
    rewrite (at_descr_dequeue_acquired d N w Hd dd pl [] Hpl Hbound self b0 q
               Hself Hq Hin) in Hop.
    injection Hop as <- <-.
    apply (owned_at_descr d N w _ (with_freeq pl q)); auto.
    cbn [with_freeq with_pool freeq readyq]. unfold in_flight in *.
    cbn [dmabuf]. rewrite <- Hperm. solve_Permutation.
Qed.

Lemma submit_owned w h b w' :
  owned d N w h -> b ∈ h ->
  AdvancedDAC_write self b w = Some w' ->
  owned d N w' (filter (fun x => x <> b) h).
Proof.
  intros (dd & pl & Hdd & Hpl & Hlen & Hbound & Hperm) Hb Hop.
  pose proof (lookup_lt_Some _ _ _ Hdd) as Hd.
  rewrite <- (at_descr_id d dd w Hdd) in Hop.
  pose proof (owned_held_in d N dd pl h Hperm b Hb) as Hin.
  destruct (at_descr_write d N w Hd dd pl [] Hpl Hbound self b Hself Hin Hlen)
    as (o & _ & Hw).
  rewrite Hw in Hop. injection Hop as <-.
  apply (owned_at_descr d N w _ (with_readyq pl (readyq pl ++ [b]))); auto.
  cbn [with_readyq with_pool freeq readyq]. unfold in_flight in *.
  cbn [dmabuf]. rewrite <- Hperm.
  rewrite (held_split b h (owned_held_NoDup d N dd pl h Hperm) Hb) at 2.
  solve_Permutation.
Qed.

Lemma release_owned w h b w' :
  owned d N w h -> b ∈ h ->
  DMABuffer_release b w = Some w' ->
  owned d N w' (filter (fun x => x <> b) h).
Proof.
  intros (dd & pl & Hdd & Hpl & Hlen & Hbound & Hperm) Hb Hop.
  pose proof (lookup_lt_Some _ _ _ Hdd) as Hd.
  rewrite <- (at_descr_id d dd w Hdd) in Hop.
  pose proof (owned_held_in d N dd pl h Hperm b Hb) as Hin.
  rewrite (at_descr_release_bound d N w Hd dd pl [] b Hpl Hbound Hin) in Hop.
  injection Hop as <-.
  destruct (released_queues d N pl b Hbound Hin) as (Hf & Hr & _).
  apply (owned_at_descr d N w _ (released pl b)); auto.
  { apply released_bound, Hbound. }
  rewrite Hf, Hr. unfold in_flight in *. cbn [with_pool dmabuf].
  rewrite <- Hperm.
  rewrite (held_split b h (owned_held_NoDup d N dd pl h Hperm) Hb) at 2.
  solve_Permutation.
Qed.

Lemma deinit_owned w h w' :
  owned d N w h ->
  dac_descr_deinit (Some d) false w = Some w' ->
  owned d N w' h.
Proof.
  intros (dd & pl & Hdd & Hpl & Hlen & Hbound & Hperm) Hop.
  pose proof (lookup_lt_Some _ _ _ Hdd) as Hd.
  rewrite <- (at_descr_id d dd w Hdd) in Hop.
  pose proof (owned_in_flight_Forall d N dd pl h Hperm) as Hfl.
  rewrite (at_descr_deinit d N w Hd dd pl [] Hpl Hbound Hlen Hfl) in Hop.
  injection Hop as <-.
  destruct (fold_released_queues d N (in_flight dd) pl Hbound Hfl)
    as (Hf & Hr & _).
  apply (owned_at_descr d N w _ (fold_left released (in_flight dd) pl));
    auto.
  { apply fold_released_bound, Hbound. }
  rewrite Hf, Hr. rewrite <- Hperm. unfold in_flight at 2.
  cbn [with_dmabuf dmabuf].
  rewrite filter_cons_False by (intros E; exact (E eq_refl)).
  rewrite filter_cons_False by (intros E; exact (E eq_refl)).
  rewrite filter_nil. solve_Permutation.
Qed.

Lemma complete_owned w h dma chan ct w' :
  owned d N w h ->
  dac_descr_get chan = Some d ->
  DAC_DMAConvCplt dma chan ct w = Some w' ->
  owned d N w' h.
Proof.
  intros Hown Hchan Hop.
  pose proof Hown as (dd & pl & Hdd & Hpl & Hlen & Hbound & Hperm).
  pose proof (lookup_lt_Some _ _ _ Hdd) as Hd.
  pose proof (owned_ready_in d N dd pl h Hperm) as Hready.
  pose proof (owned_in_flight_in d N dd pl h Hperm) as Hflight.
  destruct (readyq pl) as [| b' q] eqn:Hq.
  - rewrite <- (at_descr_id d dd w Hdd) in Hop.
    rewrite (at_descr_complete_underrun d w Hd dd pl [] Hpl dma chan ct
               Hchan Hq) in Hop.
    rewrite (at_descr_id d dd w Hdd) in Hop.
    exact (deinit_owned w h w' Hown Hop).
  - rewrite <- (at_descr_id d dd w Hdd) in Hop.
    assert (Hb' : b' ∈ pool_buffers d N) by (apply Hready; left).
    destruct (dmabuf dd) as [| s0 [| s1 [| ? ?]]] eqn:Hdm;
      try discriminate Hlen.
    set (slot := if ct then 0%nat else 1%nat).
    assert (Hslot : exists b, dmabuf dd !! slot = Some b /\
              (b = nullptr \/ b ∈ in_flight dd)).
    { unfold in_flight. rewrite Hdm. subst slot.
      destruct ct; cbn [lookup list_lookup]; eexists; (split; [reflexivity |]).
      - destruct (decide (s0 = nullptr)) as [E | E]; [left; exact E | right].
        apply list_elem_of_filter. split; [exact E | left].
      - destruct (decide (s1 = nullptr)) as [E | E]; [left; exact E | right].
        apply list_elem_of_filter. split; [exact E | right; left]. }
    destruct Hslot as (b & Hslot & [-> | Hb]).
    { rewrite (at_descr_complete_null d w Hd dd pl [] Hpl dma chan ct Hchan
                 b' q Hq Hslot) in Hop. discriminate Hop. }
    pose proof (Hflight b Hb) as Hin.
    destruct (at_descr_complete_refill d N w Hd dd pl [] Hpl Hbound dma chan
                ct Hchan b b' q Hq Hslot Hin Hb') as (o' & _ & Hw).
    rewrite Hw in Hop. injection Hop as <-.
    destruct (released_queues d N pl b Hbound Hin) as (Hf & Hr & _).
    apply (owned_at_descr d N w _ (with_readyq (released pl b) q)).
    + exact Hd.
    + reflexivity.
    + cbn [with_dmabuf dmabuf]. rewrite length_insert, Hdm. reflexivity.
    + apply released_bound, Hbound.
    + cbn [with_readyq freeq readyq]. rewrite Hf, <- Hperm.
      assert (Hnb : b <> nullptr).
      { apply elem_of_pool_buffers in Hin as (j & -> & _). discriminate. }
      assert (Hnb' : b' <> nullptr).
      { apply elem_of_pool_buffers in Hb' as (j & -> & _). discriminate. }
      unfold in_flight. cbn [with_dmabuf dmabuf]. rewrite Hdm in *.
      subst slot. destruct ct; cbn [lookup list_lookup] in Hslot;
        injection Hslot as ->; cbn [insert list_insert].
      * rewrite (filter_cons_True _ b), (filter_cons_True _ b')
          by assumption.
        solve_Permutation.
      * change [s0; b] with ([s0] ++ [b]).
        change [s0; b'] with ([s0] ++ [b']).
        rewrite !filter_app.
        rewrite (filter_cons_True _ b), (filter_cons_True _ b')
          by assumption.
        rewrite filter_nil. solve_Permutation.
Qed.

Lemma stop_owned w h w' :
  owned d N w h ->
  AdvancedDAC_stop self w = Some (1, w') ->
  owned d N w' h.
Proof.
  intros Hown Hop. unfold AdvancedDAC_stop in Hop. rewrite Hself in Hop.
  destruct (dac_descr_deinit (Some d) false w) as [w1 |] eqn:Hdeinit;
    [| discriminate Hop].
  injection Hop as <-. exact (deinit_owned w h w1 Hown Hdeinit).
Qed.

(** Every operation keeps the invariant. *)
Lemma step_owned c c' :
  step self d c c' -> owned d N c.1 c.2 -> owned d N c'.1 c'.2.
Proof.
  intros Hstep. destruct Hstep; cbn [fst snd]; intros Hown.
  - eapply acquire_owned; eassumption.
  - eapply submit_owned; eassumption.
  - eapply release_owned; eassumption.
  - eapply complete_owned; eassumption.
  - eapply stop_owned; eassumption.
Qed.

Lemma rtc_step_owned c c' :
  rtc (step self d) c c' -> owned d N c.1 c.2 -> owned d N c'.1 c'.2.
Proof.
  induction 1 as [c | c1 c2 c3 Hstep _ IH]; intros Hown; [exact Hown |].
  apply IH, (step_owned c1 c2 Hstep Hown).
Qed.

End Preservation.

(** ** Partition of the buffers (C3) *)

Lemma pool_fresh_owned d N w : pool_fresh d N w -> owned d N w [].
Proof.
  intros (dd & pl & Hdd & Hpl & Hdm & Hbound & Hf & Hr).
  exists dd, pl. repeat (split; [assumption || (rewrite Hdm; reflexivity) |]).
  unfold in_flight. rewrite Hf, Hr, Hdm. cbn. rewrite !app_nil_r. reflexivity.
Qed.

Lemma owned_four_way d N w h : owned d N w h -> four_way_partition d N w h.
Proof.
  intros (dd & pl & Hdd & Hpl & _ & _ & Hperm). exists dd, pl.
  split; [exact Hdd | split; [exact Hpl |]]. split; [| split].
  - exact (owned_NoDup d N dd pl h Hperm).
  - intros b. rewrite Hperm. reflexivity.
  - rewrite <- (length_pool_buffers d N), <- Hperm, !length_app. lia.
Qed.

(** The states of the scenarios satisfy the invariant. *)
Ltac concrete_owned :=
  eexists _, _;
  split; [vm_compute; reflexivity |];
  split; [reflexivity |];
  split; [reflexivity |];
  split;
  [ eexists; split; [reflexivity |]; split; [reflexivity |];
    repeat constructor; discriminate
  | vm_compute; solve_Permutation ].

Lemma w_begun_fresh : pool_fresh 0 4 Scenario.w_begun.
Proof.
  eexists _, _. split; [vm_compute; reflexivity |].
  split; [reflexivity |]. split; [reflexivity |].
  split; [| split; reflexivity].
  eexists. split; [reflexivity |]. split; [reflexivity |].
  repeat constructor; discriminate.
Qed.

Lemma w_streaming_owned : owned 0 4 Scenario.w_streaming [].
Proof. concrete_owned. Qed.

(** C3, as the claim states it, fails: a buffer that the application
    acquired and has not yet submitted is in neither queue and in no
    in-flight slot.  In the pool of four buffers, after one [dequeue ()],
    free queue, ready queue and in-flight slots hold three buffers. *)
Lemma three_way_partition_fails :
  pool_fresh 0 4 Scenario.w_begun /\
  reachable (H := stm32h7) Scenario.dac1 0 Scenario.w_begun
    (Scenario.w_acquired, [bufat 0 0]) /\
  ~ three_way_partition 0 4 Scenario.w_acquired.
Proof.
  split; [exact w_begun_fresh |]. split.
  - apply rtc_once. apply step_acquire. vm_compute. reflexivity.
  - intros (dd & pl & Hdd & Hpl & _ & _ & Hlen).
    vm_compute in Hdd. injection Hdd as <-.
    cbn in Hpl. injection Hpl as <-. cbn in Hlen. discriminate Hlen.
Qed.

(** C3 (amended): for a pool of [N] buffers, all bound to memory, in every
    state reached from the construction by acquiring a buffer, submitting
    or releasing a buffer that the application holds, completion callbacks
    and stops, the free queue, the ready queue, the in-flight slots and the
    buffers held by the application are pairwise disjoint and without
    duplicates, every one of the [N] buffers is in exactly one of them, and
    their sizes add up to [N]. *)
Theorem ownership_partition `{Platform} self d N w0 c :
  descr self = Some d -> pool_fresh d N w0 -> reachable self d w0 c ->
  four_way_partition d N c.1 c.2.
Proof.
  intros Hself Hfresh Hreach. apply owned_four_way.
  apply (rtc_step_owned self d N Hself _ _ Hreach).
  apply pool_fresh_owned, Hfresh.
Qed.

Lemma ownership_partition_witness :
  reachable (H := stm32h7) Scenario.dac1 0 Scenario.w_begun
    (Scenario.w_acquired, [bufat 0 0]) /\
  four_way_partition 0 4 Scenario.w_acquired [bufat 0 0].
Proof.
  assert (Hreach : reachable (H := stm32h7) Scenario.dac1 0 Scenario.w_begun
                     (Scenario.w_acquired, [bufat 0 0])).
  { apply rtc_once. apply step_acquire. vm_compute. reflexivity. }
  split; [exact Hreach |].
  exact (ownership_partition (H := stm32h7) Scenario.dac1 0%nat 4%nat
           Scenario.w_begun (Scenario.w_acquired, [bufat 0 0]) eq_refl
           w_begun_fresh Hreach).
Defined.

(** ** Underrun (C5) and round trip of a buffer (C4) *)

Lemma NoDup_app_head (b : bufptr) (l rest : list bufptr) :
  NoDup (l ++ rest) -> b ∈ l ->
  length (filter (fun x => x = b) l) = 1%nat /\ b ∉ rest.
Proof.
  intros Hnd Hin. apply NoDup_app in Hnd as (Hl & Hdisj & _).
  split; [| exact (Hdisj b Hin)]. clear Hdisj.
  induction l as [| a l IH]; [apply elem_of_nil in Hin; contradiction |].
  apply NoDup_cons in Hl as [Ha Hl].
  destruct (decide (a = b)) as [-> | Hne].
  - rewrite filter_cons_True by reflexivity. cbn [length]. f_equal.
    clear IH Hin Hl. induction l as [| c l IH]; [reflexivity |].
    apply not_elem_of_cons in Ha as [Hbc Ha].
    rewrite filter_cons_False by congruence. exact (IH Ha).
  - rewrite filter_cons_False by exact Hne.
    apply elem_of_cons in Hin as [-> | Hin]; [contradiction |].
    exact (IH Hl Hin).
Qed.

Lemma not_in_flight_not_in_slots dd (b : bufptr) :
  b <> nullptr -> b ∉ in_flight dd -> b ∉ dmabuf dd.
Proof.
  intros Hnb Hnot Hin. apply Hnot. apply list_elem_of_filter. auto.
Qed.

Lemma released_same_memory pl b :
  option_map (map buf_ptr) (buffers (released pl b))
  = option_map (map buf_ptr) (buffers pl).
Proof.
  unfold released. destruct b as [| | p i]; try reflexivity.
  destruct (buffers pl) as [bs |] eqn:Hbs; [| rewrite Hbs; reflexivity].
  destruct (bs !! i) as [o |] eqn:Ho; [| rewrite Hbs; reflexivity].
  cbn. f_equal. rewrite list_fmap_insert. apply list_insert_id.
  rewrite list_lookup_fmap, Ho. reflexivity.
Qed.


(** The callback on an empty ready queue is [dac_descr_deinit]. *)
Lemma complete_underrun `{Platform} d N w dd pl dma chan ct :
  dac_descr_all w !! d = Some dd -> pool dd = Some pl ->
  length (dmabuf dd) = 2%nat -> buffers_bound d N pl ->
  Forall (fun b => b ∈ pool_buffers d N) (in_flight dd) ->
  dac_descr_get chan = Some d -> readyq pl = [] ->
  DAC_DMAConvCplt dma chan ct w
  = Some (at_descr d
            (with_dmabuf
               (with_pool dd (Some (fold_left released (in_flight dd) pl)))
               [nullptr; nullptr])
            [HAL_TIM_Base_Stop d; HAL_DAC_Stop_DMA d (channel dd)] w).
Proof.
  intros Hdd Hpl Hlen Hbound Hfl Hchan Hq.
  pose proof (lookup_lt_Some _ _ _ Hdd) as Hd.
  rewrite <- (at_descr_id d dd w Hdd) at 1.
  rewrite (at_descr_complete_underrun d w Hd dd pl [] Hpl dma chan ct
             Hchan Hq).
  apply (at_descr_deinit d N w Hd dd pl [] Hpl Hbound Hlen Hfl).
Qed.


Lemma four_buffers_bound f r :
  buffers_bound 0 4 (mkDMABufferPool f r (Some Scenario.four_buffers) 4128).
Proof.
  eexists. split; [reflexivity |]. split; [reflexivity |].
  repeat constructor; discriminate.
Qed.


Section RoundTrip.
Context `{Platform}.

(** A completion callback releases the buffer of the slot it recycles. *)
Lemma complete_releases d N w h dd pl dma chan (ct : bool) b :
  owned d N w h ->
  dac_descr_all w !! d = Some dd -> pool dd = Some pl ->
  dac_descr_get chan = Some d ->
  dmabuf dd !! (if ct then 0%nat else 1%nat) = Some b -> b <> nullptr ->
  exists w' dd' pl',
    DAC_DMAConvCplt dma chan ct w = Some w' /\
    dac_descr_all w' !! d = Some dd' /\ pool dd' = Some pl' /\
    b ∈ freeq pl'.
Proof.
  intros Hown Hdd Hpl Hchan Hslot Hnb.
  pose proof Hown as (dd0 & pl0 & Hdd0 & Hpl0 & Hlen & Hbound & Hperm).
  assert (dd0 = dd) as -> by congruence.
  assert (pl0 = pl) as -> by congruence.
  pose proof (lookup_lt_Some _ _ _ Hdd) as Hd.
  assert (Hfl : b ∈ in_flight dd).
  { apply list_elem_of_filter. split; [exact Hnb |].
    apply list_elem_of_lookup. eexists. exact Hslot. }
  pose proof (owned_in_flight_in d N dd pl h Hperm b Hfl) as Hb.
  pose proof (owned_in_flight_Forall d N dd pl h Hperm) as Hall.
  pose proof (owned_ready_in d N dd pl h Hperm) as Hready.
  destruct (readyq pl) as [| b' q] eqn:Hq.
  - pose proof (complete_underrun d N w dd pl dma chan ct Hdd Hpl Hlen
                  Hbound Hall Hchan Hq) as Hop.
    eexists _, _, _. split; [exact Hop |].
    split; [apply (at_descr_lookup d w Hd) |]. split; [reflexivity |].
    destruct (fold_released_queues d N (in_flight dd) pl Hbound Hall)
      as (-> & _).
    apply elem_of_app. right. exact Hfl.
  - assert (Hb' : b' ∈ pool_buffers d N) by (apply Hready; left).
    destruct (at_descr_complete_refill d N w Hd dd pl [] Hpl Hbound dma chan
                ct Hchan b b' q Hq Hslot Hb Hb') as (o' & _ & Hop).
    rewrite (at_descr_id d dd w Hdd) in Hop.
    eexists _, _, _. split; [exact Hop |].
    split; [apply (at_descr_lookup d w Hd) |]. split; [reflexivity |].
    cbn [with_readyq freeq].
    destruct (released_queues d N pl b Hbound Hb) as (-> & _).
    apply elem_of_app. right. left.
Qed.

End RoundTrip.

Section NeverConsumed.
Context `{Platform}.
Variables (self : AdvancedDAC) (d N : nat).
Hypothesis Hself : descr self = Some d.




End NeverConsumed.



(** ** [DMABufferPool::readable] (C1) *)

Lemma readable_eq this w pl :
  get_pool w this = Some pl ->
  DMABufferPool_readable this w = Some (negb (LLQueue_empty (readyq pl))).
Proof. intros Hpl. unfold DMABufferPool_readable. rewrite Hpl. reflexivity. Qed.

(** C1: [readable ()] is declared [bool] and is not the number of buffers
    in the ready queue.  After [begin (1, 1000, 8, 4)] and twice
    [write (dequeue ())] the ready queue holds buffers 0 and 1, the free
    queue buffers 2 and 3, and [readable ()] is [true], that is [1], where
    the claim gives [2]; the comparison [readable () > 2] of [write] is
    false in that state. *)
Theorem readable_is_not_a_count :
  exists w pl,
    Scenario.acquire_submit_n 2 Scenario.w_begun = Some w /\
    get_pool w 0 = Some pl /\
    readyq pl = [bufat 0 0; bufat 0 1] /\
    freeq pl = [bufat 0 2; bufat 0 3] /\
    DMABufferPool_readable 0 w = Some true /\
    Z.b2z true <> Z.of_nat (length (readyq pl)) /\
    (2 <? Z.b2z true) = false.
Proof.
  eexists _, _. split; [vm_compute; reflexivity |].
  split; [reflexivity |]. split; [reflexivity |]. split; [reflexivity |].
  split; [reflexivity |]. split; [cbn; discriminate | reflexivity].
Qed.

(** ** [AdvancedDAC::write] (C2, C10) *)

Section Write.
Context `{Platform}.

Lemma flush_effect T buf w w1 :
  DMABuffer_flush T buf w = Some w1 ->
  dac_descr_all w1 = dac_descr_all w /\
  exists evs, hal w1 = hal w ++ evs /\
    Forall (fun c => exists a n, c = SCB_CleanDCache_by_Addr a n) evs.
Proof.
  unfold DMABuffer_flush. intros Hf.
  destruct (deref w buf) as [o |]; [| discriminate Hf].
  destruct (negb (buf_ptr o =? 0)); injection Hf as <-.
  - split; [reflexivity |]. eexists. split; [reflexivity |].
    repeat constructor. eauto.
  - split; [reflexivity |]. exists []. rewrite app_nil_r.
    split; [reflexivity | constructor].
Qed.

Lemma enqueue_effect d buf w1 w2 :
  DMABufferPool_enqueue d buf w1 = Some w2 ->
  exists dd pl,
    dac_descr_all w1 !! d = Some dd /\ pool dd = Some pl /\
    w2 = at_descr d
           (with_pool dd (Some (with_readyq pl (readyq pl ++ [buf])))) []
           w1.
Proof.
  intros He. unfold DMABufferPool_enqueue, get_pool in He.
  destruct (dac_descr_all w1 !! d) as [dd |] eqn:Hdd; [| discriminate He].
  destruct (pool dd) as [pl |] eqn:Hpl; [| discriminate He].
  exists dd, pl. split; [reflexivity | split; [exact Hpl |]].
  pose proof (lookup_lt_Some _ _ _ Hdd) as Hd.
  rewrite <- (at_descr_id d dd w1 Hdd) in He at 1.
  rewrite (at_descr_set_pool d w1 Hd) in He. injection He as <-.
  reflexivity.
Qed.

(** In every state, [write] flushes and enqueues the buffer and does
    nothing else: it fills no in-flight slot and makes no call to the HAL
    beside the cache maintenance. *)
Lemma AdvancedDAC_write_never_starts self buf w w' d :
  AdvancedDAC_write self buf w = Some w' -> descr self = Some d ->
  (forall i, get_dmabuf w' d i = get_dmabuf w d i) /\
  (exists pl pl', get_pool w d = Some pl /\ get_pool w' d = Some pl' /\
                  readyq pl' = readyq pl ++ [buf]) /\
  exists evs, hal w' = hal w ++ evs /\
    Forall (fun c => exists a n, c = SCB_CleanDCache_by_Addr a n) evs.
Proof.
  rewrite AdvancedDAC_write_eq. intros Hw Hself. rewrite Hself in Hw.
  destruct (DMABuffer_flush Sample buf w) as [w1 |] eqn:Hf;
    [| discriminate Hw].
  destruct (DMABufferPool_enqueue d buf w1) as [w2 |] eqn:He;
    [| discriminate Hw].
  destruct (get_dmabuf w2 d 0); [| discriminate Hw].
  destruct (DMABufferPool_readable d w2); [| discriminate Hw].
  injection Hw as <-.
  destruct (flush_effect _ _ _ _ Hf) as (Hall & evs & Hhal & Hevs).
  destruct (enqueue_effect _ _ _ _ He) as (dd & pl & Hdd & Hpl & ->).
  pose proof (lookup_lt_Some _ _ _ Hdd) as Hd.
  split; [| split].
  - intros i. rewrite (at_descr_get_dmabuf d w1 Hd).
    unfold get_dmabuf. rewrite <- Hall, Hdd. reflexivity.
  - exists pl, (with_readyq pl (readyq pl ++ [buf])).
    rewrite (at_descr_get_pool d w1 Hd). unfold get_pool.
    rewrite <- Hall, Hdd. auto.
  - exists evs. split; [| exact Hevs].
    unfold at_descr. cbn [hal]. rewrite app_nil_r. exact Hhal.
Qed.

End Write.

(** C2: [write ()] does not start the transfer.  After [begin] with four
    buffers, three buffers are acquired and submitted; at the third
    [write ()] the first in-flight slot is empty and the ready queue holds
    three buffers, yet no transfer is started: both slots stay empty, the
    three buffers stay in the ready queue, and the HAL saw the three cache
    flushes only. *)
Theorem write_does_not_start_transfer :
  exists w dd pl,
    Scenario.acquire_submit_n 3 Scenario.w_begun = Some w /\
    dac_descr_all w !! 0%nat = Some dd /\ pool dd = Some pl /\
    dmabuf dd = [nullptr; nullptr] /\
    readyq pl = [bufat 0 0; bufat 0 1; bufat 0 2] /\
    freeq pl = [bufat 0 3] /\
    state_of dd = Armed /\
    hal w = hal Scenario.w_begun
            ++ [SCB_CleanDCache_by_Addr 4128 16;
                SCB_CleanDCache_by_Addr 4160 16;
                SCB_CleanDCache_by_Addr 4192 16].
Proof.
  eexists _, _, _. split; [vm_compute; reflexivity |].
  split; [reflexivity |]. repeat (split; [reflexivity |]).
  vm_compute. reflexivity.
Qed.

(** C10: without a channel descriptor, [available ()] is [false] and
    [dequeue ()] gives the null buffer, but [write ()] dereferences the
    null descriptor; [write ()] is defined only with a descriptor that has
    a pool, and with one it is defined for every buffer object. *)
Theorem AdvancedDAC_write_needs_descr `{Platform} self buf w :
  (descr self = None ->
   AdvancedDAC_available self w = Some false /\
   AdvancedDAC_dequeue self w = Some (Acquired NULLBUF w) /\
   AdvancedDAC_write self buf w = None) /\
  (forall w', AdvancedDAC_write self buf w = Some w' ->
     exists d pl, descr self = Some d /\ get_pool w d = Some pl) /\
  (forall d dd pl o,
     descr self = Some d -> dac_descr_all w !! d = Some dd ->
     pool dd = Some pl -> dmabuf dd <> [] -> deref w buf = Some o ->
     is_Some (AdvancedDAC_write self buf w)).
Proof.
  split; [| split].
  - intros Hnone. unfold AdvancedDAC_available, AdvancedDAC_dequeue.
    rewrite Hnone. split; [reflexivity | split; [reflexivity |]].
    rewrite AdvancedDAC_write_eq, Hnone.
    destruct (DMABuffer_flush Sample buf w); reflexivity.
  - intros w' Hw.
    destruct (descr self) as [d |] eqn:Hself.
    + destruct (AdvancedDAC_write_never_starts self buf w w' d Hw Hself)
        as (_ & (pl & _ & Hpl & _) & _).
      exists d, pl. auto.
    + rewrite AdvancedDAC_write_eq, Hself in Hw.
      destruct (DMABuffer_flush Sample buf w); discriminate Hw.
  - intros d dd pl o Hself Hdd Hpl Hdm Ho.
    rewrite AdvancedDAC_write_eq, Hself.
    pose proof (lookup_lt_Some _ _ _ Hdd) as Hd.
    assert (Hf : exists evs, DMABuffer_flush Sample buf w
                             = Some (at_descr d dd evs w)).
    { unfold DMABuffer_flush. rewrite Ho.
      destruct (negb (buf_ptr o =? 0)); eexists.
      - rewrite <- (at_descr_id d dd w Hdd) at 1.
        rewrite (at_descr_log d w). reflexivity.
      - rewrite (at_descr_id d dd w Hdd). reflexivity. }
    destruct Hf as (evs & ->).
    rewrite (at_descr_enqueue d w Hd dd pl evs Hpl).
    rewrite (at_descr_get_dmabuf d w Hd). cbn [with_pool dmabuf].
    destruct (dmabuf dd) as [| s0 ?]; [contradiction |].
    cbn [lookup list_lookup].
    erewrite (at_descr_readable d w Hd); [| reflexivity]. eexists. reflexivity.
Qed.

Lemma AdvancedDAC_write_needs_descr_witness :
  AdvancedDAC_available Scenario.dac0 (world_init (H := stm32h7)) = Some false /\
  AdvancedDAC_write (H := stm32h7) Scenario.dac0 NULLBUF
    (world_init (H := stm32h7)) = None /\
  is_Some (AdvancedDAC_write (H := stm32h7) Scenario.dac1 (bufat 0 3)
             Scenario.w_begun).
Proof.
  destruct (AdvancedDAC_write_needs_descr (H := stm32h7) Scenario.dac0 NULLBUF
              (world_init (H := stm32h7))) as (Hnone & _).
  destruct (Hnone eq_refl) as (Hav & _ & Hwr).
  destruct (AdvancedDAC_write_needs_descr (H := stm32h7) Scenario.dac1
              (bufat 0 3) Scenario.w_begun) as (_ & _ & Hdef).
  split; [exact Hav | split; [exact Hwr |]].
  eapply (Hdef 0%nat); [reflexivity | vm_compute; reflexivity | reflexivity
                       | discriminate | vm_compute; reflexivity].
Defined.

(** ** [AdvancedDAC::begin] (C6, C7) *)

Section Begin.
Context `{Platform}.

(** An unknown channel has no descriptor. *)
Lemma dac_descr_get_unknown chan :
  chan <> DAC_CHANNEL_1 -> chan <> DAC_CHANNEL_2 ->
  dac_descr_get chan = None.
Proof.
  intros H1 H2. unfold dac_descr_get.
  destruct (Z.eqb_spec chan DAC_CHANNEL_1); [contradiction |].
  destruct (Z.eqb_spec chan DAC_CHANNEL_2); [contradiction | reflexivity].
Qed.

Lemma pinout_descr pins w :
  dac_descr_all (fold_left (fun w pin => log (pinmap_pinout pin) w) pins w)
  = dac_descr_all w /\
  mem (fold_left (fun w pin => log (pinmap_pinout pin) w) pins w) = mem w.
Proof.
  revert w. induction pins as [| p pins IH]; intros w; [auto |].
  cbn [fold_left]. destruct (IH (log (pinmap_pinout p) w)) as [-> ->]. auto.
Qed.

(** With a pool object, [begin] on a free channel succeeds, whatever the
    allocations of the pool constructor give. *)
Lemma AdvancedDAC_begin_succeeds self res frequency n_samples n_buffers env
    w d dd :
  0 <= res < 3 -> resolved self = Some (Some d) ->
  dac_descr_all w !! d = Some dd -> pool dd = None ->
  new_pool env = true ->
  exists w',
    AdvancedDAC_begin self res frequency n_samples n_buffers env w
    = Some (1, mkAdvancedDAC (Some d) (n_channels self) (dac_pins self), w').
Proof.
  intros Hres Hresolved Hdd Hpool Hnew.
  unfold AdvancedDAC_begin. unfold resolved in Hresolved.
  destruct (Z.geb_spec res (Z.of_nat (length DAC_RES_LUT))) as [Hge | _];
    [cbn in Hge; lia |].
  destruct (dac_pins self !! 0%nat) as [pin0 |]; [| discriminate Hresolved].
  destruct (lut_at DAC_CHAN_LUT (STM_PIN_CHANNEL (pinmap_function pin0) - 1))
    as [chan |]; [| discriminate Hresolved].
  injection Hresolved as Hget. cbn [descr]. rewrite Hget.
  destruct (pinout_descr (take (Z.to_nat (n_channels self)) (dac_pins self)) w)
    as [Hall _].
  rewrite Hall, Hdd, Hpool, Hnew.
  destruct (DMABufferPool_ctor _ _ _ _ _ _ _ _) as [plc m].
  pose proof (lookup_lt_Some _ _ _ Hdd) as Hd.
  assert (Hlk : forall dd' w0, dac_descr_all w0 = dac_descr_all w ->
            dac_descr_all (set_mem m (set_descr d dd' w0)) !! d = Some dd').
  { intros dd' w0 Hw0. cbn. apply list_lookup_insert_eq. rewrite Hw0.
    exact Hd. }
  rewrite Hlk by exact Hall.
  assert (Hlut : exists r, lut_at DAC_RES_LUT res = Some r).
  { unfold lut_at. destruct (Z.leb_spec 0 res) as [_ | Hneg]; [| lia].
    apply lookup_lt_is_Some_2. cbn. lia. }
  destruct Hlut as (r & ->). eexists. reflexivity.
Qed.

End Begin.


(** With a resolution of the table, [begin] on a driver object for whose
    pin nothing is resolved reads outside [DAC_CHAN_LUT]. *)
Lemma AdvancedDAC_begin_unresolved `{Platform} self res frequency n_samples
    n_buffers env w :
  res < Z.of_nat (length DAC_RES_LUT) -> resolved self = None ->
  AdvancedDAC_begin self res frequency n_samples n_buffers env w = None.
Proof.
  intros Hres Hnone. unfold AdvancedDAC_begin.
  destruct (Z.geb_spec res (Z.of_nat (length DAC_RES_LUT))) as [Hge | _];
    [lia |].
  unfold resolved in Hnone.
  destruct (dac_pins self !! 0%nat) as [pin0 |]; [| reflexivity].
  destruct (lut_at DAC_CHAN_LUT (STM_PIN_CHANNEL (pinmap_function pin0) - 1))
    as [chan |]; [discriminate Hnone | reflexivity].
Qed.




(** C7: [begin] does not fail when the pool has no memory.  With
    [::malloc] out of memory the pool is constructed without memory and
    without a free buffer, and [begin] returns [1]; [available ()] is
    [false]. *)
Theorem begin_succeeds_without_memory :
  exists self w dd pl,
    Scenario.began Scenario.env_oom 4 = Some (1, self, w) /\
    dac_descr_all w !! 0%nat = Some dd /\ pool dd = Some pl /\
    freeq pl = [] /\ pool_mem pl = 0 /\
    AdvancedDAC_available self w = Some false.
Proof.
  eexists _, _, _, _. split; [vm_compute; reflexivity |].
  split; [reflexivity |]. repeat (split; [reflexivity |]).
  vm_compute. reflexivity.
Qed.

(** ** The constructor of the pool *)

Section Ctor.
Variables (this : nat) (n_samples n_channels bufsize : Z).

Let init := DMABufferPool_init_buffer this n_samples n_channels bufsize.

Lemma init_buffers_fold n pl bs :
  buffers pl = Some bs -> (n <= length bs)%nat ->
  exists bs',
    fold_left init (seq 0 n) pl
    = mkDMABufferPool (freeq pl ++ map (bufat this) (seq 0 n)) (readyq pl)
        (Some bs') (pool_mem pl) /\
    length bs' = length bs /\
    (forall i, (i < n)%nat ->
       bs' !! i = Some (DMABuffer_ctor (Some this) n_samples n_channels
                          (size_t (pool_mem pl
                                   + size_t (Z.of_nat i * bufsize))))) /\
    (forall i, (n <= i)%nat -> bs' !! i = bs !! i).
Proof.
  intros Hbs. induction n as [| n IH]; intros Hn.
  - exists bs. cbn. rewrite app_nil_r.
    split; [destruct pl; cbn in *; subst; reflexivity |].
    split; [reflexivity |]. split; [intros i Hi; lia | auto].
  - destruct IH as (bs' & Hfold & Hlen & Hlow & Hhigh); [lia |].
    rewrite seq_S, fold_left_app, Hfold. cbn [fold_left Nat.add].
    unfold init, DMABufferPool_init_buffer.
    cbn [freeq readyq buffers pool_mem option_map].
    eexists. split; [| split; [| split]].
    + rewrite map_app, app_assoc. reflexivity.
    + rewrite length_insert. exact Hlen.
    + intros i Hi. destruct (decide (i = n)) as [-> | Hne].
      * apply list_lookup_insert_eq. lia.
      * rewrite list_lookup_insert_ne by congruence. apply Hlow. lia.
    + intros i Hi. rewrite list_lookup_insert_ne by lia. apply Hhigh. lia.
Qed.

End Ctor.

Lemma round_pow2 k size :
  1 <= k < 32 ->
  0 <= AlignedAlloc.round (2 ^ k) size.
Proof.
  intros Hk. unfold AlignedAlloc.round. apply Z.land_nonneg. left.
  apply size_t_range.
Qed.

(** A pool whose allocations succeed, for sizes that do not wrap around,
    has its [n_buffers] buffers bound to memory and all in the free
    queue. *)
Lemma DMABufferPool_ctor_fresh T k this n_samples n_channels n_buffers env m :
  1 <= k < 32 -> 0 <= n_buffers ->
  let bufsize :=
    AlignedAlloc.round (2 ^ k)
      (size_t (size_t (n_samples * n_channels) * sizeof T)) in
  n_buffers * bufsize + AlignedAlloc.offset (2 ^ k) < SIZE_MAX ->
  new_buffers env = true -> sound_allocator (sys_malloc env) ->
  sys_malloc env (n_buffers * bufsize + AlignedAlloc.offset (2 ^ k)) <> 0 ->
  let pl := fst (DMABufferPool_ctor T (2 ^ k) this n_samples n_channels
                   n_buffers env m) in
  freeq pl = pool_buffers this (Z.to_nat n_buffers) /\ readyq pl = [] /\
  buffers_bound this (Z.to_nat n_buffers) pl.
Proof.
  intros Hk Hn bufsize Hfit Hnew Hsound Hok pl.
  pose proof (round_pow2 k (size_t (size_t (n_samples * n_channels) * sizeof T))
                Hk) as Hbs. fold bufsize in Hbs.
  assert (Hsz : 0 <= n_buffers * bufsize) by (apply Z.mul_nonneg_nonneg; lia).
  pose proof (pow2_bounds k Hk) as Hb.
  pose proof (offset_pow2 k Hk) as Hoff.
  destruct (AlignedAlloc_malloc_pow2 k (sys_malloc env)
              (n_buffers * bufsize) m Hk Hsound Hsz Hfit)
    as [[Hnull _] | ([Hpos Hend] & Hmalloc & _ & Hlo & Hhi & Hnz)];
    [contradiction |].
  subst pl. unfold DMABufferPool_ctor. fold bufsize.
  rewrite Hnew, (size_t_small (n_buffers * bufsize)) by lia.
  rewrite Hmalloc.
  set (p := Z.land _ _) in *.
  assert (Hp : p <> 0) by lia.
  rewrite bool_decide_true by discriminate.
  destruct (Z.eqb_spec p 0) as [E | _]; [contradiction |].
  cbn [negb andb fst].
  destruct (init_buffers_fold this n_samples n_channels bufsize
              (Z.to_nat n_buffers)
              (mkDMABufferPool [] [] (Some (replicate (Z.to_nat n_buffers)
                                              DMABuffer_default)) p)
              _ eq_refl) as (bs' & -> & Hlen & Hlow & _).
  { rewrite length_replicate. lia. }
  cbn [freeq readyq app]. split; [reflexivity | split; [reflexivity |]].
  exists bs'. split; [reflexivity |].
  rewrite length_replicate in Hlen. split; [exact Hlen |].
  apply Forall_lookup. intros i o Ho.
  pose proof (lookup_lt_Some _ _ _ Ho) as Hi. rewrite Hlen in Hi.
  rewrite (Hlow i Hi) in Ho. injection Ho as <-.
  cbn [DMABuffer_ctor buf_pool buf_ptr pool_mem]. split; [reflexivity |].
  assert (Hib : 0 <= Z.of_nat i * bufsize <= n_buffers * bufsize) by nia.
  unfold sizeof_voidp in Hlo.
  rewrite (size_t_small (Z.of_nat i * bufsize)) by lia.
  rewrite size_t_small by lia. lia.
Qed.

Section BeginFresh.
Context `{Platform}.

(** A successful [begin] on a free channel, with allocations that
    succeed, leaves the channel with a fresh pool of [n_buffers]
    buffers. *)
Lemma AdvancedDAC_begin_fresh self res frequency n_samples n_buffers env
    w d dd :
  0 <= res < 3 -> resolved self = Some (Some d) ->
  dac_descr_all w !! d = Some dd -> pool dd = None ->
  dmabuf dd = [nullptr; nullptr] ->
  new_pool env = true -> new_buffers env = true ->
  sound_allocator (sys_malloc env) -> 0 <= n_buffers ->
  let bufsize :=
    AlignedAlloc.round SCB_DCACHE_LINE_SIZE
      (size_t (size_t (n_samples * n_channels self) * sizeof Sample)) in
  n_buffers * bufsize + AlignedAlloc.offset SCB_DCACHE_LINE_SIZE < SIZE_MAX ->
  sys_malloc env (n_buffers * bufsize
                  + AlignedAlloc.offset SCB_DCACHE_LINE_SIZE) <> 0 ->
  exists w',
    AdvancedDAC_begin self res frequency n_samples n_buffers env w
    = Some (1, mkAdvancedDAC (Some d) (n_channels self) (dac_pins self), w')
    /\ pool_fresh d (Z.to_nat n_buffers) w'.
Proof.
  intros Hres Hresolved Hdd Hpool Hdm Hnew Hnewb Hsound Hn bufsize Hfit Hok.
  destruct (DMABufferPool_ctor_fresh Sample 5 d n_samples (n_channels self)
              n_buffers env (mem w) ltac:(lia) Hn Hfit Hnewb Hsound Hok)
    as (Hf & Hr & Hbound).
  change (2 ^ 5) with SCB_DCACHE_LINE_SIZE in *.
  unfold AdvancedDAC_begin. unfold resolved in Hresolved.
  destruct (Z.geb_spec res (Z.of_nat (length DAC_RES_LUT))) as [Hge | _];
    [cbn in Hge; lia |].
  destruct (dac_pins self !! 0%nat) as [pin0 |]; [| discriminate Hresolved].
  destruct (lut_at DAC_CHAN_LUT (STM_PIN_CHANNEL (pinmap_function pin0) - 1))
    as [chan |]; [| discriminate Hresolved].
  injection Hresolved as Hget. cbn [descr n_channels]. rewrite Hget.
  destruct (pinout_descr (take (Z.to_nat (n_channels self)) (dac_pins self)) w)
    as [Hall Hmem].
  rewrite Hall, Hdd, Hpool, Hnew, Hmem.
  destruct (DMABufferPool_ctor _ _ _ _ _ _ _ _) as [plc m].
  cbn [fst] in Hf, Hr, Hbound.
  pose proof (lookup_lt_Some _ _ _ Hdd) as Hd.
  assert (Hlk : forall dd' w0, dac_descr_all w0 = dac_descr_all w ->
            dac_descr_all (set_mem m (set_descr d dd' w0)) !! d = Some dd').
  { intros dd' w0 Hw0. cbn. apply list_lookup_insert_eq. rewrite Hw0.
    exact Hd. }
  rewrite Hlk by exact Hall.
  assert (Hlut : exists r, lut_at DAC_RES_LUT res = Some r).
  { unfold lut_at. destruct (Z.leb_spec 0 res) as [_ | Hneg]; [| lia].
    apply lookup_lt_is_Some_2. cbn. lia. }
  destruct Hlut as (r & ->). eexists. split; [reflexivity |].
  exists (with_resolution (with_pool dd (Some plc)) r), plc.
  split.
  { destruct (channel (with_pool dd (Some plc)) =? DAC_CHANNEL_1); cbn;
      rewrite list_insert_insert_eq; apply list_lookup_insert_eq;
      rewrite Hall; exact Hd. }
  cbn [with_resolution with_pool pool dmabuf]. auto.
Qed.

End BeginFresh.

Lemma fresh_pool_exists :
  exists w, Scenario.began Scenario.env 4 = Some (1, Scenario.dac1, w) /\
            pool_fresh 0 4 w.
Proof.
  destruct (AdvancedDAC_begin_fresh (H := stm32h7) Scenario.dac0 1 1000 8 4
              Scenario.env (world_init (H := stm32h7)) 0%nat
              (mk_dac_descr 0 0 None [nullptr; nullptr])
              ltac:(lia) eq_refl eq_refl eq_refl eq_refl eq_refl eq_refl
              heap_malloc_sound ltac:(lia) ltac:(vm_compute; reflexivity)
              ltac:(vm_compute; discriminate)) as (w & Hb & Hfresh).
  exists w. split; [exact Hb | exact Hfresh].
Qed.

(** * Further properties of the code *)

(** ** [AlignedAlloc<A>::round] *)

Lemma multiple_below k r :
  0 <= k <= 32 -> r mod 2 ^ k = 0 -> 0 <= r < SIZE_MAX ->
  r + 2 ^ k - 1 < SIZE_MAX.
Proof.
  intros Hk Hmod Hr. unfold SIZE_MAX in *.
  assert (Hp : 0 < 2 ^ k) by (apply Z.pow_pos_nonneg; lia).
  assert (Hsplit : 2 ^ 32 = 2 ^ k * 2 ^ (32 - k)).
  { rewrite <- Z.pow_add_r by lia. f_equal. lia. }
  pose proof (Z.div_mod r (2 ^ k) ltac:(lia)) as Hdm. rewrite Hmod in Hdm.
  assert (Hq : r / 2 ^ k < 2 ^ (32 - k)) by nia.
  nia.
Qed.

(** [round] for an alignment that is a power of two. *)
Lemma AlignedAlloc_round_pow2 k size :
  0 <= k < 32 -> 0 <= size -> size + 2 ^ k - 1 < SIZE_MAX ->
  let r := AlignedAlloc.round (2 ^ k) size in
  r = size + 2 ^ k - 1 - (size + 2 ^ k - 1) mod 2 ^ k /\
  r mod 2 ^ k = 0 /\ size <= r < size + 2 ^ k /\
  (size mod 2 ^ k = 0 -> r = size) /\
  AlignedAlloc.round (2 ^ k) r = r.
Proof.
  intros Hk Hsize Hfit.
  assert (Hp : 0 < 2 ^ k <= 2 ^ 31).
  { split; [apply Z.pow_pos_nonneg; lia | apply Z.pow_le_mono_r; lia]. }
  assert (Hround : forall s, 0 <= s -> s + 2 ^ k - 1 < SIZE_MAX ->
            AlignedAlloc.round (2 ^ k) s
            = s + 2 ^ k - 1 - (s + 2 ^ k - 1) mod 2 ^ k).
  { intros s Hs Hsf. unfold AlignedAlloc.round.
    rewrite (size_t_small (2 ^ k - 1)) by (unfold SIZE_MAX; lia).
    rewrite size_t_small by lia.
    rewrite land_mask_pow2 by lia. f_equal; f_equal; lia. }
  cbv zeta. rewrite (Hround size Hsize Hfit).
  set (x := size + 2 ^ k - 1).
  pose proof (Z.mod_pos_bound x (2 ^ k) ltac:(lia)) as Hm.
  assert (Hmult : (x - x mod 2 ^ k) mod 2 ^ k = 0).
  { rewrite Zminus_mod, Z.mod_mod, Z.sub_diag by lia. apply Z.mod_0_l. lia. }
  assert (Hexact : forall s, 0 <= s -> s mod 2 ^ k = 0 ->
            (s + 2 ^ k - 1) mod 2 ^ k = 2 ^ k - 1).
  { intros s Hs Hs0.
    pose proof (Z.div_mod s (2 ^ k) ltac:(lia)) as Hdm. rewrite Hs0 in Hdm.
    replace (s + 2 ^ k - 1) with (2 ^ k - 1 + s / 2 ^ k * 2 ^ k) by lia.
    rewrite Z.mod_add by lia. apply Z.mod_small. lia. }
  assert (Hlow : size <= x - x mod 2 ^ k).
  { pose proof (Z.div_mod size (2 ^ k) ltac:(lia)) as Hdm.
    pose proof (Z.mod_pos_bound size (2 ^ k) ltac:(lia)) as Hsm.
    destruct (Z.eq_dec (size mod 2 ^ k) 0) as [E | E].
    - subst x. rewrite (Hexact size Hsize E). lia.
    - assert (Hx : x = (size mod 2 ^ k - 1) + (size / 2 ^ k + 1) * 2 ^ k)
        by (subst x; lia).
      rewrite Hx at 2. rewrite Z.mod_add by lia.
      rewrite (Z.mod_small (size mod 2 ^ k - 1)) by lia. lia. }
  split; [reflexivity |].
  split; [exact Hmult |]. split; [subst x; lia |]. split.
  - intros E. subst x. rewrite (Hexact size Hsize E). lia.
  - assert (Hr : 0 <= x - x mod 2 ^ k < SIZE_MAX) by (subst x; lia).
    rewrite Hround;
      [| lia | apply (multiple_below k); [lia | exact Hmult | exact Hr]].
    rewrite (Hexact (x - x mod 2 ^ k) ltac:(lia) Hmult). lia.
Qed.

(** X1: for an alignment that is a power of two and a size that [A - 1]
    does not carry over the end of [size_t], [round (size)] is the least
    multiple of [A] that is at least [size]: it is a multiple of [A],
    at least [size], less than [size + A], and a multiple of [A] is its own
    rounding. *)
Theorem AlignedAlloc_round_spec k size :
  0 <= k < 32 -> 0 <= size -> size + 2 ^ k - 1 < SIZE_MAX ->
  let r := AlignedAlloc.round (2 ^ k) size in
  r mod 2 ^ k = 0 /\ size <= r < size + 2 ^ k /\
  (forall r', r' mod 2 ^ k = 0 -> size <= r' -> r <= r') /\
  (size mod 2 ^ k = 0 -> r = size) /\
  AlignedAlloc.round (2 ^ k) r = r.
Proof.
  intros Hk Hsize Hfit.
  destruct (AlignedAlloc_round_pow2 k size Hk Hsize Hfit)
    as (_ & Hmult & Hrange & Hsame & Hidem).
  cbv zeta in *. split; [exact Hmult |]. split; [exact Hrange |].
  split; [| split; [exact Hsame | exact Hidem]].
  intros r' Hr' Hle.
  assert (Hp : 0 < 2 ^ k) by (apply Z.pow_pos_nonneg; lia).
  set (r := AlignedAlloc.round (2 ^ k) size) in *.
  pose proof (Z.div_mod r (2 ^ k) ltac:(lia)) as Hd1.
  pose proof (Z.div_mod r' (2 ^ k) ltac:(lia)) as Hd2.
  rewrite Hmult in Hd1. rewrite Hr' in Hd2.
  destruct (Z.le_gt_cases r r') as [Hok | Hgt]; [exact Hok |].
  assert (Hq : r' / 2 ^ k < r / 2 ^ k) by nia.
  nia.
Qed.

Lemma AlignedAlloc_round_spec_witness :
  AlignedAlloc.round SCB_DCACHE_LINE_SIZE 16 = 32 /\
  AlignedAlloc.round SCB_DCACHE_LINE_SIZE 33 = 64 /\
  AlignedAlloc.round SCB_DCACHE_LINE_SIZE 64 = 64.
Proof.
  destruct (AlignedAlloc_round_spec 5 64 ltac:(lia) ltac:(lia)
              ltac:(vm_compute; reflexivity)) as (_ & _ & _ & Hsame & _).
  split; [reflexivity | split; [reflexivity |]].
  apply Hsame. reflexivity.
Defined.

(** ** The flags of a [DMABuffer] *)

Lemma bits_above_size_t g n :
  0 <= g < SIZE_MAX -> 32 <= n -> Z.testbit g n = false.
Proof.
  intros Hg Hn. rewrite <- (size_t_small g Hg). unfold size_t, SIZE_MAX.
  apply Z.mod_pow2_bits_high. lia.
Qed.

Lemma testbit_size_t z n :
  0 <= n -> Z.testbit (size_t z) n = Z.testbit z n && (n <? 32).
Proof.
  intros Hn. rewrite size_t_land, Z.land_spec, Z.testbit_ones by lia.
  destruct (Z.leb_spec 0 n); [| lia]. reflexivity.
Qed.

(** X2: [setflags (f)] makes [getflags (f)] true for a non-zero [f];
    [clrflags (f)] makes it false; both leave [getflags (g)] as it was for
    flags [g] that share no bit with [f]; [clrflags ()] clears every flag;
    none of them touches the other fields of the buffer. *)
Theorem DMABuffer_flags_spec b f g :
  0 <= f < SIZE_MAX -> 0 <= g < SIZE_MAX -> Z.land f g = 0 ->
  (f <> 0 -> DMABuffer_getflags (DMABuffer_setflags b f) f = true) /\
  DMABuffer_getflags (DMABuffer_clrflags b f) f = false /\
  DMABuffer_getflags (DMABuffer_setflags b f) g = DMABuffer_getflags b g /\
  DMABuffer_getflags (DMABuffer_clrflags b f) g = DMABuffer_getflags b g /\
  buf_flags (DMABuffer_clrflags b 4294967295) = 0 /\
  DMABuffer_setflags b f = set_flags b (buf_flags (DMABuffer_setflags b f)) /\
  DMABuffer_clrflags b f = set_flags b (buf_flags (DMABuffer_clrflags b f)).
Proof.
  intros Hf Hg Hfg.
  unfold DMABuffer_getflags, DMABuffer_setflags, DMABuffer_clrflags, set_flags.
  cbn [buf_flags].
  assert (Hbit : forall n, 0 <= n ->
            Z.testbit f n && Z.testbit g n = false).
  { intros n Hn. rewrite <- Z.land_spec, Hfg. apply Z.bits_0. }
  repeat split.
  - intros Hnz. rewrite Z.land_comm, Z.land_lor_distr_r, Z.land_diag.
    destruct (Z.eqb_spec (Z.lor (Z.land f (buf_flags b)) f) 0) as [E | E];
      [| reflexivity].
    apply Z.lor_eq_0_iff in E as [_ E]. contradiction.
  - replace (Z.land (Z.land (buf_flags b) (size_t (Z.lnot f))) f) with 0;
      [reflexivity |].
    symmetry. apply Z.bits_inj'. intros n Hn.
    rewrite !Z.land_spec, testbit_size_t, Z.lnot_spec, Z.bits_0 by lia.
    destruct (Z.testbit f n); cbn; rewrite ?andb_false_r; reflexivity.
  - f_equal. f_equal. rewrite Z.land_lor_distr_l, Hfg. apply Z.lor_0_r.
  - f_equal. f_equal. apply Z.bits_inj'. intros n Hn.
    rewrite !Z.land_spec, testbit_size_t, Z.lnot_spec by lia.
    pose proof (Hbit n Hn) as Hn0.
    destruct (Z.testbit g n) eqn:Hgn; [| rewrite !andb_false_r; reflexivity].
    rewrite andb_true_r in Hn0. rewrite Hn0. cbn.
    destruct (Z.ltb_spec n 32) as [_ | Hhigh];
      [rewrite !andb_true_r; reflexivity |].
    rewrite (bits_above_size_t g n Hg Hhigh) in Hgn. discriminate Hgn.
  - change (size_t (Z.lnot 4294967295)) with 0. apply Z.land_0_r.
Qed.

Lemma DMABuffer_flags_spec_witness :
  DMABuffer_getflags (DMABuffer_setflags DMABuffer_default DMA_BUFFER_INTRLVD)
    DMA_BUFFER_INTRLVD = true /\
  DMABuffer_getflags (DMABuffer_clrflags Cases.flagged DMA_BUFFER_DISCONT)
    DMA_BUFFER_INTRLVD = true /\
  DMABuffer_getflags (DMABuffer_clrflags Cases.flagged DMA_BUFFER_DISCONT)
    DMA_BUFFER_DISCONT = false.
Proof.
  destruct (DMABuffer_flags_spec DMABuffer_default DMA_BUFFER_INTRLVD
              DMA_BUFFER_DISCONT ltac:(vm_compute; split; [discriminate | reflexivity])
              ltac:(vm_compute; split; [discriminate | reflexivity]) eq_refl)
    as (Hset & _).
  destruct (DMABuffer_flags_spec Cases.flagged DMA_BUFFER_DISCONT
              DMA_BUFFER_INTRLVD ltac:(vm_compute; split; [discriminate | reflexivity])
              ltac:(vm_compute; split; [discriminate | reflexivity]) eq_refl)
    as (_ & Hclr & _ & Hkeep & _).
  split; [apply Hset; discriminate |].
  split; [rewrite Hkeep; reflexivity | exact Hclr].
Defined.

(** ** The null buffer *)

(** X3: before [begin], [dequeue ()] hands out the null buffer, and the
    null buffer is inert: [flush ()], [invalidate ()] and [release ()] on it
    change nothing, make no call to the HAL and touch no queue, and an
    indexed read gives the sentinel. *)
Theorem null_buffer_inert `{Platform} (T : int_type) self w i m :
  descr self = None -> buf_ptr (NULLBUF_obj w) = 0 ->
  AdvancedDAC_dequeue self w = Some (Acquired NULLBUF w) /\
  DMABuffer_flush T NULLBUF w = Some w /\
  DMABuffer_invalidate T NULLBUF w = Some w /\
  DMABuffer_release NULLBUF w = Some w /\
  DMABuffer_index T (NULLBUF_obj w) i m = Some (cast T (-1)).
Proof.
  intros Hself Hptr.
  unfold AdvancedDAC_dequeue, DMABuffer_flush, DMABuffer_invalidate,
    DMABuffer_release, DMABuffer_index.
  cbn [deref]. rewrite Hself, Hptr. cbn [Z.eqb negb andb].
  repeat split; try reflexivity.
  destruct (buf_pool (NULLBUF_obj w)); reflexivity.
Qed.

Lemma null_buffer_inert_witness :
  AdvancedDAC_dequeue Scenario.dac0 (world_init (H := stm32h7))
  = Some (Acquired NULLBUF (world_init (H := stm32h7))) /\
  DMABuffer_release NULLBUF (world_init (H := stm32h7))
  = Some (world_init (H := stm32h7)) /\
  DMABuffer_index uint16_t (NULLBUF_obj (world_init (H := stm32h7))) 0
    no_memory = Some 65535.
Proof.
  destruct (null_buffer_inert (H := stm32h7) uint16_t Scenario.dac0
              (world_init (H := stm32h7)) 0 no_memory eq_refl eq_refl)
    as (Hdq & _ & _ & Hrel & Hidx).
  split; [exact Hdq | split; [exact Hrel | exact Hidx]].
Defined.

(** ** Acquire, submit, release *)

Section Producer.
Context `{Platform}.
Variables (self : AdvancedDAC) (d N : nat) (w : world).
Variables (dd : dac_descr_t) (pl : DMABufferPool).
Hypothesis Hself : descr self = Some d.
Hypothesis Hdd : dac_descr_all w !! d = Some dd.
Hypothesis Hpl : pool dd = Some pl.
Hypothesis Hbound : buffers_bound d N pl.

Lemma dequeue_empty :
  freeq pl = [] ->
  AdvancedDAC_available self w = Some false /\
  AdvancedDAC_dequeue self w = Some Suspended.
Proof.
  intros Hq. pose proof (lookup_lt_Some _ _ _ Hdd) as Hd.
  rewrite <- (at_descr_id d dd w Hdd).
  rewrite (at_descr_dequeue_suspended d w Hd dd pl [] Hpl self Hself Hq).
  unfold AdvancedDAC_available. rewrite Hself.
  rewrite (at_descr_writable d w Hd dd pl [] Hpl), Hq. auto.
Qed.

Lemma dequeue_head b q :
  freeq pl = b :: q -> b ∈ pool_buffers d N ->
  AdvancedDAC_available self w = Some true /\
  AdvancedDAC_dequeue self w
  = Some (Acquired b
            (at_descr d (with_pool dd (Some (with_freeq pl q))) [] w)).
Proof.
  intros Hq Hb. pose proof (lookup_lt_Some _ _ _ Hdd) as Hd.
  rewrite <- (at_descr_id d dd w Hdd) at 1 2.
  rewrite (at_descr_dequeue_acquired d N w Hd dd pl [] Hpl Hbound self b q
             Hself Hq Hb).
  unfold AdvancedDAC_available. rewrite Hself.
  rewrite (at_descr_writable d w Hd dd pl [] Hpl), Hq. auto.
Qed.

End Producer.

(** X4: on a channel with a pool whose buffers are bound to memory and
    whose free queue holds buffers of the pool, [dequeue ()] returns exactly
    when [available ()] is true.  It then returns the oldest buffer of the
    free queue, a buffer with memory, takes it off the free queue, and
    leaves the ready queue, the in-flight slots and the HAL alone; with an
    empty free queue it stays suspended. *)
Theorem AdvancedDAC_dequeue_spec `{Platform} self d N w dd pl :
  descr self = Some d ->
  dac_descr_all w !! d = Some dd -> pool dd = Some pl ->
  buffers_bound d N pl ->
  Forall (fun b => b ∈ pool_buffers d N) (freeq pl) ->
  (freeq pl = [] /\
   AdvancedDAC_available self w = Some false /\
   AdvancedDAC_dequeue self w = Some Suspended) \/
  (exists b q w' dd' pl' o,
     freeq pl = b :: q /\
     AdvancedDAC_available self w = Some true /\
     AdvancedDAC_dequeue self w = Some (Acquired b w') /\
     deref w' b = Some o /\ buf_ptr o <> 0 /\ buf_pool o = Some d /\
     dac_descr_all w' !! d = Some dd' /\ pool dd' = Some pl' /\
     freeq pl' = q /\ readyq pl' = readyq pl /\ dmabuf dd' = dmabuf dd /\
     hal w' = hal w).
Proof.
  intros Hself Hdd Hpl Hbound Hall.
  pose proof (lookup_lt_Some _ _ _ Hdd) as Hd.
  destruct (freeq pl) as [| b q] eqn:Hq.
  - left. split; [reflexivity |].
    exact (dequeue_empty self d w dd pl Hself Hdd Hpl Hq).
  - right. apply Forall_cons in Hall as [Hb _].
    destruct (dequeue_head self d N w dd pl Hself Hdd Hpl Hbound b q Hq Hb)
      as (Hav & Hdq).
    destruct (at_descr_deref_bound d N w Hd
                (with_pool dd (Some (with_freeq pl q))) (with_freeq pl q) []
                b eq_refl Hbound Hb) as (o & Ho & Hpo & Hptr).
    eexists b, q, _, _, _, o.
    split; [reflexivity |]. split; [exact Hav |]. split; [exact Hdq |].
    split; [exact Ho |]. split; [exact Hptr |]. split; [exact Hpo |].
    split; [apply (at_descr_lookup d w Hd) |].
    split; [reflexivity |]. repeat (split; [reflexivity |]).
    unfold at_descr. cbn [hal]. apply app_nil_r.
Qed.

Lemma AdvancedDAC_dequeue_spec_witness :
  exists w',
    AdvancedDAC_dequeue Scenario.dac1 Scenario.w_begun
    = Some (Acquired (bufat 0 0) w') /\
    AdvancedDAC_available Scenario.dac1 Scenario.w_begun = Some true.
Proof.
  destruct (AdvancedDAC_dequeue_spec (H := stm32h7) Scenario.dac1 0%nat 4%nat
              Scenario.w_begun
              (mk_dac_descr 0 0
                 (Some (mkDMABufferPool (pool_buffers 0 4) []
                          (Some Scenario.four_buffers) 4128))
                 [nullptr; nullptr])
              (mkDMABufferPool (pool_buffers 0 4) []
                 (Some Scenario.four_buffers) 4128)
              eq_refl ltac:(vm_compute; reflexivity) eq_refl
              (four_buffers_bound _ _)
              ltac:(apply Forall_forall; intros b Hb; exact Hb))
    as [(Hq & _) | (b & q & w' & dd' & pl' & o & Hq & Hav & Hdq & _)].
  - discriminate Hq.
  - injection Hq as <- _. exists w'. split; [exact Hdq | exact Hav].
Defined.

Ltac not_queued :=
  let Hin := fresh "Hin" in
  intros Hin; cbn in Hin;
  repeat (apply elem_of_cons in Hin as [Hin | Hin]; [discriminate Hin |]);
  inversion Hin.

(** X5: [write ()] of a buffer of the pool that the application holds,
    that is a buffer that is in neither queue and in no in-flight slot,
    cleans the data cache over the memory of that buffer, [bytes ()] bytes
    from [data ()], and puts the buffer at the back of the ready queue.  The
    free queue, the in-flight slots, the buffer objects, the other
    descriptors and the memory stay as they were. *)
Theorem AdvancedDAC_write_effect `{Platform} self d N w dd pl b :
  descr self = Some d ->
  dac_descr_all w !! d = Some dd -> pool dd = Some pl ->
  buffers_bound d N pl -> length (dmabuf dd) = 2%nat ->
  b ∈ pool_buffers d N ->
  b ∉ freeq pl ++ readyq pl ++ in_flight dd ->
  exists o w' dd' pl',
    deref w b = Some o /\
    AdvancedDAC_write self b w = Some w' /\
    hal w' = hal w ++ [SCB_CleanDCache_by_Addr (buf_ptr o)
                         (DMABuffer_bytes Sample o)] /\
    dac_descr_all w' !! d = Some dd' /\ pool dd' = Some pl' /\
    readyq pl' = readyq pl ++ [b] /\ freeq pl' = freeq pl /\
    buffers pl' = buffers pl /\ dmabuf dd' = dmabuf dd /\
    (forall d', d' <> d -> dac_descr_all w' !! d' = dac_descr_all w !! d') /\
    mem w' = mem w /\ b ∉ freeq pl' ++ in_flight dd'.
Proof.
  intros Hself Hdd Hpl Hbound Hlen Hb Hheld.
  pose proof (lookup_lt_Some _ _ _ Hdd) as Hd.
  destruct (at_descr_write d N w Hd dd pl [] Hpl Hbound self b Hself Hb Hlen)
    as (o & Ho & Hw).
  rewrite (at_descr_id d dd w Hdd) in Ho, Hw.
  eexists o, _, _, _. split; [exact Ho |]. split; [exact Hw |].
  split; [reflexivity |].
  split; [apply (at_descr_lookup d w Hd) |].
  split; [reflexivity |]. repeat (split; [reflexivity |]).
  split; [| split; [reflexivity |]].
  - intros d' Hne. unfold at_descr. cbn [dac_descr_all].
    apply list_lookup_insert_ne. congruence.
  - intros Hin. apply Hheld. rewrite !elem_of_app in *.
    destruct Hin as [Hin | Hin]; [left | right; right]; exact Hin.
Qed.

Lemma AdvancedDAC_write_effect_witness :
  exists w',
    AdvancedDAC_write (H := stm32h7) Scenario.dac1 (bufat 0 0)
      Scenario.w_acquired = Some w' /\
    hal w' = hal Scenario.w_acquired ++ [SCB_CleanDCache_by_Addr 4128 16].
Proof.
  destruct (AdvancedDAC_write_effect (H := stm32h7) Scenario.dac1 0%nat 4%nat
              Scenario.w_acquired
              (mk_dac_descr 0 0
                 (Some (mkDMABufferPool [bufat 0 1; bufat 0 2; bufat 0 3] []
                          (Some Scenario.four_buffers) 4128))
                 [nullptr; nullptr])
              (mkDMABufferPool [bufat 0 1; bufat 0 2; bufat 0 3] []
                 (Some Scenario.four_buffers) 4128)
              (bufat 0 0)
              eq_refl ltac:(vm_compute; reflexivity) eq_refl
              (four_buffers_bound _ _) eq_refl
              ltac:(apply elem_of_pool_buffers; exists 0%nat;
                    split; [reflexivity | lia])
              ltac:(not_queued))
    as (o & w' & dd' & pl' & Ho & Hw & Hhal & _).
  vm_compute in Ho. injection Ho as <-.
  exists w'. split; [exact Hw | exact Hhal].
Defined.

(** X6: [release ()] of a buffer of the pool that the application holds,
    that is a buffer that is in neither queue and in no in-flight slot,
    clears all its flags and keeps its memory, its sizes and its timestamp,
    puts it at the back of the free queue, and leaves the ready queue and
    the other buffers of the pool as they were. *)
Theorem DMABuffer_release_effect d N w dd pl i o :
  dac_descr_all w !! d = Some dd -> pool dd = Some pl ->
  buffers_bound d N pl -> deref w (bufat d i) = Some o ->
  bufat d i ∉ freeq pl ++ readyq pl ++ in_flight dd ->
  exists w' dd' pl',
    DMABuffer_release (bufat d i) w = Some w' /\
    deref w' (bufat d i) = Some (set_flags o 0) /\
    (forall j, j <> i -> deref w' (bufat d j) = deref w (bufat d j)) /\
    dac_descr_all w' !! d = Some dd' /\ pool dd' = Some pl' /\
    freeq pl' = freeq pl ++ [bufat d i] /\ readyq pl' = readyq pl /\
    dmabuf dd' = dmabuf dd /\ hal w' = hal w /\
    bufat d i ∉ readyq pl' ++ in_flight dd'.
Proof.
  intros Hdd Hpl Hbound Ho Hheld.
  pose proof (lookup_lt_Some _ _ _ Hdd) as Hd.
  destruct Hbound as (bs & Hbs & Hlen & Hall).
  assert (Hderef : forall j, deref w (bufat d j) = bs !! j).
  { intros j. cbn [deref]. unfold get_pool. rewrite Hdd, Hpl, Hbs.
    reflexivity. }
  rewrite Hderef in Ho.
  rewrite Forall_lookup in Hall. destruct (Hall i o Ho) as [Hpool Hptr].
  pose proof (at_descr_release d w Hd dd pl [] Hpl i bs o Hbs Ho Hpool Hptr)
    as Hrel.
  rewrite (at_descr_id d dd w Hdd) in Hrel.
  eexists _, _, _. split; [exact Hrel |].
  assert (Hclr : DMABuffer_clrflags o 4294967295 = set_flags o 0).
  { unfold DMABuffer_clrflags. f_equal.
    change (size_t (Z.lnot 4294967295)) with 0. apply Z.land_0_r. }
  split; [| split].
  - erewrite (at_descr_deref d w Hd); [| reflexivity | reflexivity].
    rewrite list_lookup_insert_eq by (apply lookup_lt_Some in Ho; exact Ho).
    rewrite Hclr. reflexivity.
  - intros j Hne.
    erewrite (at_descr_deref d w Hd); [| reflexivity | reflexivity].
    rewrite list_lookup_insert_ne by congruence. symmetry. apply Hderef.
  - split; [apply (at_descr_lookup d w Hd) |].
    split; [reflexivity |]. repeat (split; [reflexivity |]).
    split; [unfold at_descr; cbn [hal]; apply app_nil_r |].
    intros Hin. apply Hheld. rewrite !elem_of_app in *. right. exact Hin.
Qed.

Lemma DMABuffer_release_effect_witness :
  exists w',
    DMABuffer_release (bufat 0 0) Scenario.w_acquired = Some w' /\
    deref w' (bufat 0 0) = Some (mkDMABuffer (Some 0%nat) 8 1 4128 0 0).
Proof.
  destruct (DMABuffer_release_effect 0%nat 4%nat Scenario.w_acquired
              (mk_dac_descr 0 0
                 (Some (mkDMABufferPool [bufat 0 1; bufat 0 2; bufat 0 3] []
                          (Some Scenario.four_buffers) 4128))
                 [nullptr; nullptr])
              (mkDMABufferPool [bufat 0 1; bufat 0 2; bufat 0 3] []
                 (Some Scenario.four_buffers) 4128)
              0%nat (mkDMABuffer (Some 0%nat) 8 1 4128 0 0)
              ltac:(vm_compute; reflexivity) eq_refl (four_buffers_bound _ _)
              ltac:(vm_compute; reflexivity) ltac:(not_queued))
    as (w' & dd' & pl' & Hrel & Hde & _).
  exists w'. split; [exact Hrel | exact Hde].
Defined.

(** ** Stop and completion *)






(** X9: a completion callback that finds a buffer ready and nothing in the
    slot it recycles dereferences a null pointer: the callback does not
    test the slot.  That is the state of a channel on which buffers were
    submitted and no transfer is in flight. *)
Theorem complete_on_empty_slot `{Platform} d w dd pl dma chan (ct : bool) :
  dac_descr_all w !! d = Some dd -> pool dd = Some pl ->
  dac_descr_get chan = Some d -> readyq pl <> [] ->
  dmabuf dd !! (if ct then 0%nat else 1%nat) = Some nullptr ->
  DAC_DMAConvCplt dma chan ct w = None.
Proof.
  intros Hdd Hpl Hchan Hq Hslot.
  pose proof (lookup_lt_Some _ _ _ Hdd) as Hd.
  destruct (readyq pl) as [| b' q] eqn:Hr; [contradiction |].
  rewrite <- (at_descr_id d dd w Hdd).
  exact (at_descr_complete_null d w Hd dd pl [] Hpl dma chan ct Hchan b' q Hr
           Hslot).
Qed.

Lemma complete_on_empty_slot_witness :
  DAC_DMAConvCplt (H := stm32h7) 0 0 true Cases.w_three_ready = None /\
  DAC_DMAConvCplt (H := stm32h7) 0 0 false Cases.w_three_ready = None.
Proof.
  split.
  - eapply (complete_on_empty_slot (H := stm32h7) 0%nat Cases.w_three_ready
              _ _ 0%nat 0 true);
      [vm_compute; reflexivity | reflexivity | reflexivity | discriminate
       | reflexivity].
  - eapply (complete_on_empty_slot (H := stm32h7) 0%nat Cases.w_three_ready
              _ _ 0%nat 0 false);
      [vm_compute; reflexivity | reflexivity | reflexivity | discriminate
       | reflexivity].
Defined.

(** ** What the operations on a channel leave alone *)

Lemma within_channel_refl d w : within_channel d w w.
Proof.
  repeat split; auto.
  - exists []. symmetry. apply app_nil_r.
  - intros dd Hdd. exists dd. auto.
Qed.

Lemma within_channel_trans d w1 w2 w3 :
  within_channel d w1 w2 -> within_channel d w2 w3 -> within_channel d w1 w3.
Proof.
  intros (Ho1 & Hm1 & Hn1 & (e1 & He1) & Hc1) (Ho2 & Hm2 & Hn2 & (e2 & He2) & Hc2).
  repeat split.
  - intros d' Hne. rewrite (Ho2 d' Hne). apply Ho1, Hne.
  - congruence.
  - congruence.
  - exists (e1 ++ e2). rewrite He2, He1, app_assoc. reflexivity.
  - intros dd Hdd. destruct (Hc1 dd Hdd) as (dd2 & Hdd2 & Hch2 & Hr2).
    destruct (Hc2 dd2 Hdd2) as (dd3 & Hdd3 & Hch3 & Hr3).
    exists dd3. split; [exact Hdd3 | split; congruence].
Qed.

Lemma within_channel_at_descr d w dd dd' evs :
  dac_descr_all w !! d = Some dd ->
  channel dd' = channel dd -> resolution dd' = resolution dd ->
  within_channel d w (at_descr d dd' evs w).
Proof.
  intros Hdd Hch Hres. pose proof (lookup_lt_Some _ _ _ Hdd) as Hd.
  repeat split.
  - intros d' Hne. unfold at_descr. cbn [dac_descr_all].
    apply list_lookup_insert_ne. congruence.
  - exists evs. reflexivity.
  - intros dd0 Hdd0. exists dd'. rewrite (at_descr_lookup d w Hd).
    split; [reflexivity | split; congruence].
Qed.

Section Isolation.
Context `{Platform}.
Variables (self : AdvancedDAC) (d N : nat).
Hypothesis Hself : descr self = Some d.

Lemma step_within_channel w h w' h' :
  owned d N w h -> step self d (w, h) (w', h') -> within_channel d w w'.
Proof.
  intros Hown Hstep.
  pose proof Hown as (dd & pl & Hdd & Hpl & Hlen & Hbound & Hperm).
  pose proof (lookup_lt_Some _ _ _ Hdd) as Hd.
  pose proof (owned_free_in d N dd pl h Hperm) as Hfree.
  pose proof (owned_ready_in d N dd pl h Hperm) as Hready.
  pose proof (owned_held_in d N dd pl h Hperm) as Hheld.
  pose proof (owned_in_flight_in d N dd pl h Hperm) as Hflight.
  pose proof (owned_in_flight_Forall d N dd pl h Hperm) as Hfl.
  inversion Hstep as [ w1 h1 b w2 Hop | w1 h1 b w2 Hb Hop
                     | w1 h1 b w2 Hb Hop | w1 h1 chan ct w2 Hchan Hop
                     | w1 h1 w2 Hop ]; subst.
  - rewrite <- (at_descr_id d dd w Hdd) in Hop.
    destruct (freeq pl) as [| b0 q] eqn:Hq.
    + rewrite (at_descr_dequeue_suspended d w Hd dd pl [] Hpl self Hself Hq)
        in Hop. discriminate Hop.
    + rewrite (at_descr_dequeue_acquired d N w Hd dd pl [] Hpl Hbound self
                 b0 q Hself Hq (Hfree b0 ltac:(left))) in Hop.
      injection Hop as <- <-.
      apply (within_channel_at_descr d w dd); auto.
  - rewrite <- (at_descr_id d dd w Hdd) in Hop.
    destruct (at_descr_write d N w Hd dd pl [] Hpl Hbound self b Hself
                (Hheld b Hb) Hlen) as (o & _ & Hw).
    rewrite Hw in Hop. injection Hop as <-.
    apply (within_channel_at_descr d w dd); auto.
  - rewrite <- (at_descr_id d dd w Hdd) in Hop.
    rewrite (at_descr_release_bound d N w Hd dd pl [] b Hpl Hbound
               (Hheld b Hb)) in Hop.
    injection Hop as <-.
    apply (within_channel_at_descr d w dd); auto.
  - destruct (readyq pl) as [| b' q] eqn:Hq.
    + rewrite (complete_underrun d N w dd pl d chan ct Hdd Hpl Hlen Hbound
                 Hfl Hchan Hq) in Hop.
      injection Hop as <-.
      apply (within_channel_at_descr d w dd); auto.
    + rewrite <- (at_descr_id d dd w Hdd) in Hop.
      set (slot := if ct then 0%nat else 1%nat).
      assert (Hslot : exists b, dmabuf dd !! slot = Some b).
      { apply lookup_lt_is_Some_2. rewrite Hlen. subst slot.
        destruct ct; lia. }
      destruct Hslot as (b & Hslot).
      destruct (decide (b = nullptr)) as [-> | Hnb].
      { rewrite (at_descr_complete_null d w Hd dd pl [] Hpl d chan ct Hchan
                   b' q Hq Hslot) in Hop. discriminate Hop. }
      assert (Hin : b ∈ pool_buffers d N).
      { apply Hflight. apply list_elem_of_filter. split; [exact Hnb |].
        apply list_elem_of_lookup. eexists. exact Hslot. }
      destruct (at_descr_complete_refill d N w Hd dd pl [] Hpl Hbound d chan
                  ct Hchan b b' q Hq Hslot Hin (Hready b' ltac:(left)))
        as (o' & _ & Hw).
      rewrite Hw in Hop. injection Hop as <-.
      apply (within_channel_at_descr d w dd); auto.
  - unfold AdvancedDAC_stop in Hop. rewrite Hself in Hop.
    rewrite <- (at_descr_id d dd w Hdd) in Hop.
    rewrite (at_descr_deinit d N w Hd dd pl [] Hpl Hbound Hlen Hfl) in Hop.
    injection Hop as <-.
    apply (within_channel_at_descr d w dd); auto.
Qed.

Lemma rtc_within_channel c c' :
  rtc (step self d) c c' -> owned d N c.1 c.2 ->
  within_channel d c.1 c'.1.
Proof.
  induction 1 as [c | [w1 h1] [w2 h2] c3 Hstep _ IH]; intros Hown.
  - apply within_channel_refl.
  - cbn [fst snd] in *.
    apply (within_channel_trans d w1 w2).
    + exact (step_within_channel w1 h1 w2 h2 Hown Hstep).
    + apply IH. exact (step_owned self d N Hself _ _ Hstep Hown).
Qed.

End Isolation.

(** X10: whatever the application and the interrupt handler do on one
    channel (acquire, submit, release, completion callbacks, stop), they
    change the pool and the slots of that channel only: the descriptor of
    the other channel, the memory and the null buffer stay as they were, the
    channel number and the resolution of the descriptor stay, and the calls
    made to the HAL are added to the log. *)
Theorem channel_isolation `{Platform} self d N w0 c :
  descr self = Some d -> pool_fresh d N w0 -> reachable self d w0 c ->
  within_channel d w0 c.1.
Proof.
  intros Hself Hfresh Hreach.
  apply (rtc_within_channel self d N Hself (w0, []) c Hreach).
  apply pool_fresh_owned, Hfresh.
Qed.

Lemma channel_isolation_witness :
  within_channel 0 Scenario.w_begun Scenario.w_acquired /\
  dac_descr_all Scenario.w_acquired !! 1%nat
  = Some (mk_dac_descr 16 0 None [nullptr; nullptr]).
Proof.
  assert (Hreach : reachable (H := stm32h7) Scenario.dac1 0 Scenario.w_begun
                     (Scenario.w_acquired, [bufat 0 0])).
  { apply rtc_once. apply step_acquire. vm_compute. reflexivity. }
  pose proof (channel_isolation (H := stm32h7) Scenario.dac1 0%nat 4%nat
                Scenario.w_begun _ eq_refl w_begun_fresh Hreach) as Hin.
  split; [exact Hin |].
  destruct Hin as (Hother & _). cbn [fst] in Hother.
  rewrite (Hother 1%nat ltac:(discriminate)). vm_compute. reflexivity.
Defined.

(** ** The destructor *)

Section Destructor.
Context `{Platform}.
Variables (d : nat) (w : world).
Hypothesis Hd : (d < length (dac_descr_all w))%nat.

Lemma at_descr_deinit_dealloc dd evs :
  dac_descr_deinit (Some d) true (at_descr d dd evs w)
  = dac_descr_deinit_loop d (seq 0 (length (dmabuf dd)))
      (at_descr d (with_pool dd None)
         (evs ++ [HAL_TIM_Base_Stop d; HAL_DAC_Stop_DMA d (channel dd)]) w).
Proof.
  unfold dac_descr_deinit. rewrite (at_descr_lookup d w Hd).
  rewrite !(at_descr_log d w), <- app_assoc. cbn [app].
  rewrite (at_descr_lookup d w Hd), (at_descr_set d w).
  rewrite (at_descr_lookup d w Hd). reflexivity.
Qed.

(** [release ()] of a buffer of a pool that was deleted. *)
Lemma release_after_delete dd evs j :
  pool dd = None ->
  DMABuffer_release (bufat d j) (at_descr d dd evs w) = None.
Proof.
  intros Hpl. unfold DMABuffer_release. cbn [deref].
  rewrite (at_descr_get_pool d w Hd), Hpl. reflexivity.
Qed.

Lemma deinit_loop_deleted dd evs i idx j :
  pool dd = None -> dmabuf dd !! i = Some (bufat d j) ->
  dac_descr_deinit_loop d (i :: idx) (at_descr d dd evs w) = None.
Proof.
  intros Hpl Hi. cbn [dac_descr_deinit_loop].
  rewrite (at_descr_get_dmabuf d w Hd), Hi.
  rewrite bool_decide_true by discriminate.
  rewrite (release_after_delete dd evs j Hpl). reflexivity.
Qed.

End Destructor.

(** X11: the destructor of a driver whose channel has no buffer in flight
    stops the trigger timer and the transfer and deletes the pool: the
    channel is uninitialized again, the pointers to the buffers of the pool
    dangle, and a later [begin] on the channel is not rejected as a second
    [begin]. *)
Theorem AdvancedDAC_dtor_unbinds `{Platform} self d w dd :
  descr self = Some d -> dac_descr_all w !! d = Some dd ->
  dmabuf dd = [nullptr; nullptr] ->
  exists w',
    AdvancedDAC_dtor self w = Some w' /\
    dac_descr_all w' !! d = Some (with_pool dd None) /\
    state_of (with_pool dd None) = Uninitialized /\
    hal w' = hal w ++ [HAL_TIM_Base_Stop d; HAL_DAC_Stop_DMA d (channel dd)] /\
    (forall d', d' <> d -> dac_descr_all w' !! d' = dac_descr_all w !! d') /\
    (forall i, deref w' (bufat d i) = None) /\
    (forall res frequency n_samples n_buffers env,
       0 <= res < 3 -> resolved self = Some (Some d) -> new_pool env = true ->
       exists w'',
         AdvancedDAC_begin self res frequency n_samples n_buffers env w'
         = Some (1, mkAdvancedDAC (Some d) (n_channels self) (dac_pins self),
                 w'')).
Proof.
  intros Hself Hdd Hdm. pose proof (lookup_lt_Some _ _ _ Hdd) as Hd.
  assert (Hop : AdvancedDAC_dtor self w
                = Some (at_descr d (with_pool dd None)
                          [HAL_TIM_Base_Stop d;
                           HAL_DAC_Stop_DMA d (channel dd)] w)).
  { unfold AdvancedDAC_dtor. rewrite Hself.
    rewrite <- (at_descr_id d dd w Hdd) at 1.
    rewrite (at_descr_deinit_dealloc d w Hd), Hdm. cbn [length seq app].
    rewrite (deinit_loop_null d w Hd) by (cbn; rewrite Hdm; reflexivity).
    rewrite (deinit_loop_null d w Hd) by (cbn; rewrite Hdm; reflexivity).
    reflexivity. }
  eexists. split; [exact Hop |].
  split; [apply (at_descr_lookup d w Hd) |]. split; [reflexivity |].
  split; [reflexivity |]. split; [| split].
  - intros d' Hne. unfold at_descr. cbn [dac_descr_all].
    apply list_lookup_insert_ne. congruence.
  - intros i. cbn [deref]. rewrite (at_descr_get_pool d w Hd). reflexivity.
  - intros res frequency n_samples n_buffers env Hres Hresolved Hnew.
    apply (AdvancedDAC_begin_succeeds self res frequency n_samples n_buffers
             env _ d (with_pool dd None) Hres Hresolved);
      [apply (at_descr_lookup d w Hd) | reflexivity | exact Hnew].
Qed.

Lemma AdvancedDAC_dtor_unbinds_witness :
  exists w' w'',
    AdvancedDAC_dtor Scenario.dac1 Scenario.w_begun = Some w' /\
    get_pool w' 0 = None /\
    AdvancedDAC_begin (H := stm32h7) Scenario.dac1 2 500 8 4 Scenario.env w'
    = Some (1, Scenario.dac1, w'').
Proof.
  destruct (AdvancedDAC_dtor_unbinds (H := stm32h7) Scenario.dac1 0%nat
              Scenario.w_begun _ eq_refl eq_refl eq_refl)
    as (w' & Hop & Hdd & _ & _ & _ & _ & Hagain).
  destruct (Hagain 2 500 8 4 Scenario.env ltac:(lia) eq_refl eq_refl)
    as (w'' & Hb).
  exists w', w''. split; [exact Hop |]. split; [| exact Hb].
  unfold get_pool. rewrite Hdd. reflexivity.
Defined.

(** X12: the destructor of a driver whose channel has a buffer in flight
    deletes the pool, and with it the buffers, before it releases the
    buffers in flight: [release ()] is then called on a buffer that is no
    more. *)
Theorem AdvancedDAC_dtor_in_flight `{Platform} self d N w dd :
  descr self = Some d -> dac_descr_all w !! d = Some dd ->
  length (dmabuf dd) = 2%nat ->
  Forall (fun b => b ∈ pool_buffers d N) (in_flight dd) ->
  in_flight dd <> [] ->
  AdvancedDAC_dtor self w = None.
Proof.
  intros Hself Hdd Hlen Hfl Hne. pose proof (lookup_lt_Some _ _ _ Hdd) as Hd.
  unfold AdvancedDAC_dtor. rewrite Hself.
  rewrite <- (at_descr_id d dd w Hdd).
  rewrite (at_descr_deinit_dealloc d w Hd).
  destruct (dmabuf dd) as [| s0 [| s1 [| ? ?]]] eqn:Hdm;
    try discriminate Hlen.
  unfold in_flight in Hfl, Hne. rewrite Hdm in Hfl, Hne.
  cbn [length seq].
  destruct (decide (s0 = nullptr)) as [-> | Hs0].
  - rewrite (deinit_loop_null d w Hd) by (cbn; rewrite Hdm; reflexivity).
    rewrite filter_cons_False in Hfl, Hne by (intros E; exact (E eq_refl)).
    destruct (decide (s1 = nullptr)) as [-> | Hs1].
    + rewrite filter_cons_False in Hne by (intros E; exact (E eq_refl)).
      contradiction.
    + rewrite filter_cons_True in Hfl by exact Hs1.
      apply Forall_cons in Hfl as [Hin _].
      apply elem_of_pool_buffers in Hin as (j & -> & _).
      apply (deinit_loop_deleted d w Hd _ _ 1%nat [] j);
        [reflexivity | cbn; rewrite Hdm; reflexivity].
  - rewrite filter_cons_True in Hfl by exact Hs0.
    apply Forall_cons in Hfl as [Hin _].
    apply elem_of_pool_buffers in Hin as (j & -> & _).
    apply (deinit_loop_deleted d w Hd _ _ 0%nat [1%nat] j);
      [reflexivity | cbn; rewrite Hdm; reflexivity].
Qed.

Lemma AdvancedDAC_dtor_in_flight_witness :
  AdvancedDAC_dtor Scenario.dac1 Scenario.w_streaming = None.
Proof.
  apply (AdvancedDAC_dtor_in_flight (H := stm32h7) Scenario.dac1 0%nat 4%nat
           Scenario.w_streaming _ eq_refl eq_refl eq_refl).
  - repeat constructor; apply elem_of_pool_buffers; eexists;
      (split; [reflexivity | lia]).
  - discriminate.
Defined.

(** ** The results of [begin] *)

Section BeginResults.
Context `{Platform}.

Lemma pinout_log pins w :
  fold_left (fun w pin => log (pinmap_pinout pin) w) pins w
  = mkWorld (dac_descr_all w) (NULLBUF_obj w)
      (hal w ++ map pinmap_pinout pins) (mem w).
Proof.
  revert w. induction pins as [| p pins IH]; intros w.
  - cbn. rewrite app_nil_r. destruct w; reflexivity.
  - cbn [fold_left map]. rewrite IH. unfold log. cbn.
    rewrite <- app_assoc. reflexivity.
Qed.

Lemma lut_at_res res :
  0 <= res < 3 ->
  exists r, lut_at DAC_RES_LUT res = Some r /\
    (res = 0 -> r = DAC_ALIGN_8B_R) /\
    (res = 1 \/ res = 2 -> r = DAC_ALIGN_12B_R).
Proof.
  intros Hres. unfold lut_at.
  destruct (Z.leb_spec 0 res) as [_ | Hneg]; [| lia].
  assert (Hcases : res = 0 \/ res = 1 \/ res = 2) by lia.
  destruct Hcases as [-> | [-> | ->]]; eexists;
    (split; [reflexivity |]); split; intros; (reflexivity || lia).
Qed.

End BeginResults.

(** X13: [begin] returns [1] or [0], and it returns [1] exactly when the
    resolution is an index of the precision table, a descriptor is resolved
    for the pin, that descriptor has no pool, and the pool object is
    allocated; the driver is then bound to the descriptor and the
    descriptor to a pool.  When it returns [0], the descriptors and the
    memory are as before. *)
Theorem AdvancedDAC_begin_result `{Platform} self res frequency n_samples
    n_buffers env w r self' w' :
  AdvancedDAC_begin self res frequency n_samples n_buffers env w
  = Some (r, self', w') ->
  (r = 1 /\ 0 <= res < 3 /\ new_pool env = true /\
   exists d, resolved self = Some (Some d) /\ get_pool w d = None /\
             descr self' = Some d /\ is_Some (get_pool w' d)) \/
  (r = 0 /\ dac_descr_all w' = dac_descr_all w /\ mem w' = mem w /\
   (3 <= res \/ resolved self = Some None \/
    (exists d pl, resolved self = Some (Some d) /\ get_pool w d = Some pl) \/
    new_pool env = false)).
Proof.
  unfold AdvancedDAC_begin, resolved. intros Hb.
  destruct (Z.geb_spec res (Z.of_nat (length DAC_RES_LUT))) as [Hge | Hlt].
  { injection Hb as <- <- <-. right. cbn in Hge.
    split; [reflexivity |]. split; [reflexivity |]. split; [reflexivity |].
    left. lia. }
  destruct (pinout_descr (take (Z.to_nat (n_channels self)) (dac_pins self)) w)
    as [Hall Hmem].
  destruct (dac_pins self !! 0%nat) as [pin0 |]; [| discriminate Hb].
  destruct (lut_at DAC_CHAN_LUT (STM_PIN_CHANNEL (pinmap_function pin0) - 1))
    as [chan |]; [| discriminate Hb].
  cbn [descr] in Hb.
  destruct (dac_descr_get chan) as [d |].
  2:{ injection Hb as <- <- <-. right.
      split; [reflexivity |]. split; [exact Hall |]. split; [exact Hmem |].
      right. left. reflexivity. }
  rewrite Hall in Hb.
  destruct (dac_descr_all w !! d) as [dd |] eqn:Hdd; [| discriminate Hb].
  destruct (pool dd) as [pl |] eqn:Hpl.
  { injection Hb as <- <- <-. right.
    split; [reflexivity |]. split; [exact Hall |]. split; [exact Hmem |].
    right. right. left. exists d, pl. unfold get_pool. rewrite Hdd. auto. }
  destruct (new_pool env) eqn:Hnew.
  2:{ injection Hb as <- <- <-. right.
      split; [reflexivity |]. split; [exact Hall |]. split; [exact Hmem |].
      right. right. right. reflexivity. }
  destruct (DMABufferPool_ctor _ _ _ _ _ _ _ _) as [plc m].
  pose proof (lookup_lt_Some _ _ _ Hdd) as Hd.
  assert (Hlk : forall dd' w0, dac_descr_all w0 = dac_descr_all w ->
            dac_descr_all (set_mem m (set_descr d dd' w0)) !! d = Some dd').
  { intros dd' w0 Hw0. cbn. apply list_lookup_insert_eq. rewrite Hw0.
    exact Hd. }
  rewrite Hlk in Hb by exact Hall.
  destruct (lut_at DAC_RES_LUT res) as [r0 |] eqn:Hlut; [| discriminate Hb].
  injection Hb as <- <- <-. left. split; [reflexivity |].
  split.
  { unfold lut_at in Hlut. destruct (Z.leb_spec 0 res); [| discriminate Hlut].
    cbn in Hlt. lia. }
  split; [reflexivity |]. exists d.
  split; [reflexivity |]. split; [unfold get_pool; rewrite Hdd; exact Hpl |].
  split; [reflexivity |]. exists plc. unfold get_pool.
  match goal with
  | |- (let* dd := dac_descr_all ?w1 !! d in pool dd) = _ =>
      assert (Hlast : dac_descr_all w1 !! d
                      = Some (with_resolution (with_pool dd (Some plc)) r0))
  end.
  { destruct (_ =? DAC_CHANNEL_1); cbn;
      rewrite list_insert_insert_eq; apply list_lookup_insert_eq;
      rewrite Hall; exact Hd. }
  rewrite Hlast. reflexivity.
Qed.

Lemma AdvancedDAC_begin_result_witness :
  (exists w', Scenario.began Scenario.env 4 = Some (1, Scenario.dac1, w')) /\
  resolved (H := stm32h7) Scenario.dac0 = Some (Some 0%nat).
Proof.
  destruct (Scenario.began Scenario.env 4) as [[[r self'] w'] |] eqn:Hb;
    [| vm_compute in Hb; discriminate Hb].
  unfold Scenario.began in Hb.
  destruct (AdvancedDAC_begin_result (H := stm32h7) _ _ _ _ _ _ _ _ _ _ Hb)
    as [(-> & _ & _ & d & Hres & _ & Hself & _) | (-> & _)].
  - assert (Hself' : self' = Scenario.dac1).
    { apply (f_equal (option_map (fun x => snd (fst x)))) in Hb.
      vm_compute in Hb. injection Hb as <-. reflexivity. }
    subst self'. cbn in Hself. injection Hself as <-.
    split; [exists w'; reflexivity | exact Hres].
  - apply (f_equal (option_map (fun x => fst (fst x)))) in Hb.
    vm_compute in Hb. discriminate Hb.
Defined.

(** The state after a [begin] that succeeds. *)
Lemma AdvancedDAC_begin_success `{Platform} self res frequency n_samples
    n_buffers env w d dd :
  0 <= res < 3 -> resolved self = Some (Some d) ->
  dac_descr_all w !! d = Some dd -> pool dd = None ->
  new_pool env = true ->
  exists r0,
    lut_at DAC_RES_LUT res = Some r0 /\
    (res = 0 -> r0 = DAC_ALIGN_8B_R) /\
    (res = 1 \/ res = 2 -> r0 = DAC_ALIGN_12B_R) /\
    let ctor :=
      DMABufferPool_ctor Sample SCB_DCACHE_LINE_SIZE d n_samples
        (n_channels self) n_buffers env (mem w) in
    AdvancedDAC_begin self res frequency n_samples n_buffers env w
    = Some (1, mkAdvancedDAC (Some d) (n_channels self) (dac_pins self),
            mkWorld
              (<[d := with_resolution (with_pool dd (Some (fst ctor))) r0]>
                 (dac_descr_all w))
              (NULLBUF_obj w)
              (hal w
               ++ map pinmap_pinout
                    (take (Z.to_nat (n_channels self)) (dac_pins self))
               ++ [hal_dma_config d; hal_dac_config d (channel dd);
                   HAL_LINKDMA d (if channel dd =? DAC_CHANNEL_1
                                  then 1%nat else 2%nat) d;
                   hal_tim_config d frequency])
              (snd ctor)).
Proof.
  intros Hres Hresolved Hdd Hpool Hnew.
  destruct (lut_at_res res Hres) as (r0 & Hlut & H8 & H12).
  exists r0. split; [exact Hlut |]. split; [exact H8 |]. split; [exact H12 |].
  cbv zeta.
  unfold AdvancedDAC_begin. unfold resolved in Hresolved.
  destruct (Z.geb_spec res (Z.of_nat (length DAC_RES_LUT))) as [Hge | _];
    [cbn in Hge; lia |].
  destruct (dac_pins self !! 0%nat) as [pin0 |]; [| discriminate Hresolved].
  destruct (lut_at DAC_CHAN_LUT (STM_PIN_CHANNEL (pinmap_function pin0) - 1))
    as [chan |]; [| discriminate Hresolved].
  injection Hresolved as Hget. cbn [descr n_channels]. rewrite Hget.
  rewrite pinout_log. cbn [dac_descr_all mem]. rewrite Hdd, Hpool, Hnew.
  destruct (DMABufferPool_ctor _ _ _ _ _ _ _ _) as [plc m]. cbn [fst snd].
  pose proof (lookup_lt_Some _ _ _ Hdd) as Hd.
  cbn [set_descr set_mem dac_descr_all].
  rewrite list_lookup_insert_eq by exact Hd. rewrite Hlut.
  cbn [with_pool channel].
  destruct (channel dd =? DAC_CHANNEL_1); unfold log; cbn;
    rewrite list_insert_insert_eq, <- !app_assoc; reflexivity.
Qed.

(** X14: a [begin] that succeeds configures the pin of each channel of the
    driver, then the DMA, the DAC with the channel of the descriptor, the
    link of the DMA handle ([DMA_Handle1] for channel 1, [DMA_Handle2]
    otherwise) and the trigger timer with the frequency, in this order.  The
    descriptor gets the resolution of the table, 8 bits for index [0] and
    12 bits for [1] and [2], keeps its channel and its empty slots, and the
    other descriptors are left alone. *)
Theorem AdvancedDAC_begin_configures `{Platform} self res frequency n_samples
    n_buffers env w d dd :
  0 <= res < 3 -> resolved self = Some (Some d) ->
  dac_descr_all w !! d = Some dd -> pool dd = None ->
  new_pool env = true ->
  exists w' dd' r0,
    AdvancedDAC_begin self res frequency n_samples n_buffers env w
    = Some (1, mkAdvancedDAC (Some d) (n_channels self) (dac_pins self), w') /\
    hal w' = hal w
             ++ map pinmap_pinout
                  (take (Z.to_nat (n_channels self)) (dac_pins self))
             ++ [hal_dma_config d; hal_dac_config d (channel dd);
                 HAL_LINKDMA d (if channel dd =? DAC_CHANNEL_1
                                then 1%nat else 2%nat) d;
                 hal_tim_config d frequency] /\
    dac_descr_all w' !! d = Some dd' /\
    resolution dd' = r0 /\
    (res = 0 -> r0 = DAC_ALIGN_8B_R) /\
    (res = 1 \/ res = 2 -> r0 = DAC_ALIGN_12B_R) /\
    channel dd' = channel dd /\ dmabuf dd' = dmabuf dd /\
    pool dd' = Some (fst (DMABufferPool_ctor Sample SCB_DCACHE_LINE_SIZE d
                            n_samples (n_channels self) n_buffers env
                            (mem w))) /\
    (forall d', d' <> d -> dac_descr_all w' !! d' = dac_descr_all w !! d').
Proof.
  intros Hres Hresolved Hdd Hpool Hnew.
  destruct (AdvancedDAC_begin_success self res frequency n_samples n_buffers
              env w d dd Hres Hresolved Hdd Hpool Hnew)
    as (r0 & _ & H8 & H12 & Hb).
  cbv zeta in Hb. pose proof (lookup_lt_Some _ _ _ Hdd) as Hd.
  eexists _, _, r0. split; [exact Hb |]. split; [reflexivity |].
  split; [cbn; apply list_lookup_insert_eq; exact Hd |].
  split; [reflexivity |]. split; [exact H8 |]. split; [exact H12 |].
  split; [reflexivity |]. split; [reflexivity |]. split; [reflexivity |].
  intros d' Hne. cbn. apply list_lookup_insert_ne. congruence.
Qed.

Lemma AdvancedDAC_begin_configures_witness :
  exists w',
    Scenario.began Scenario.env 4 = Some (1, Scenario.dac1, w') /\
    hal w' = [pinmap_pinout 4; hal_dma_config 0; hal_dac_config 0 0;
              HAL_LINKDMA 0 1 0; hal_tim_config 0 1000].
Proof.
  destruct (AdvancedDAC_begin_configures (H := stm32h7) Scenario.dac0 1 1000 8
              4 Scenario.env (world_init (H := stm32h7)) 0%nat _
              ltac:(lia) eq_refl eq_refl eq_refl eq_refl)
    as (w' & dd' & r0 & Hb & Hhal & _).
  exists w'. split; [exact Hb | exact Hhal].
Defined.

(** ** The memory of the buffers of a pool *)

(** X15: when the allocations of the constructor succeed, for sizes that
    do not wrap around, the [i]-th buffer of the pool has its memory at
    [pool + i * bufsize], [bufsize] being [bytes ()] rounded up to the cache
    line: every buffer starts on a cache-line boundary and lies inside the
    allocated block, after the stashed handle, and the slices of two buffers
    do not overlap. *)
Theorem DMABufferPool_ctor_layout T k this n_samples n_channels n_buffers env
    m :
  1 <= k < 32 -> 0 <= n_buffers ->
  let nbytes := size_t (size_t (n_samples * n_channels) * sizeof T) in
  let bufsize := AlignedAlloc.round (2 ^ k) nbytes in
  nbytes + 2 ^ k - 1 < SIZE_MAX ->
  n_buffers * bufsize + AlignedAlloc.offset (2 ^ k) < SIZE_MAX ->
  new_buffers env = true -> sound_allocator (sys_malloc env) ->
  let stashed :=
    sys_malloc env (n_buffers * bufsize + AlignedAlloc.offset (2 ^ k)) in
  stashed <> 0 ->
  let pl := fst (DMABufferPool_ctor T (2 ^ k) this n_samples n_channels
                   n_buffers env m) in
  exists bs,
    buffers pl = Some bs /\ length bs = Z.to_nat n_buffers /\
    pool_mem pl mod 2 ^ k = 0 /\
    forall i o, bs !! i = Some o ->
      buf_ptr o = pool_mem pl + Z.of_nat i * bufsize /\
      buf_ptr o mod 2 ^ k = 0 /\
      DMABuffer_bytes T o = nbytes /\ nbytes <= bufsize /\
      stashed + sizeof_voidp <= buf_ptr o /\
      buf_ptr o + bufsize
      <= stashed + (n_buffers * bufsize + AlignedAlloc.offset (2 ^ k)) /\
      (forall j o', bs !! j = Some o' -> (i < j)%nat ->
                    buf_ptr o + bufsize <= buf_ptr o').
Proof.
  intros Hk Hn nbytes bufsize Hbfit Hfit Hnew Hsound stashed Hok pl.
  assert (Hnb : 0 <= nbytes) by apply size_t_range.
  destruct (AlignedAlloc_round_pow2 k nbytes ltac:(lia) Hnb Hbfit)
    as (_ & Hbmod & Hbrange & _). fold bufsize in Hbmod, Hbrange.
  assert (Hsz : 0 <= n_buffers * bufsize) by (apply Z.mul_nonneg_nonneg; lia).
  pose proof (pow2_bounds k Hk) as Hb.
  pose proof (offset_pow2 k Hk) as Hoff.
  destruct (AlignedAlloc_malloc_pow2 k (sys_malloc env)
              (n_buffers * bufsize) m Hk Hsound Hsz Hfit)
    as [[Hnull _] | ([Hpos Hend] & Hmalloc & Hpmod & Hlo & Hhi & Hnz)];
    [contradiction |].
  fold stashed in Hpos, Hend, Hlo, Hhi, Hmalloc.
  subst pl. unfold DMABufferPool_ctor. fold nbytes. fold bufsize.
  rewrite Hnew, (size_t_small (n_buffers * bufsize)) by lia.
  rewrite Hmalloc.
  set (p := Z.land _ _) in *.
  rewrite bool_decide_true by discriminate.
  destruct (Z.eqb_spec p 0) as [E | _]; [lia |].
  cbn [negb andb fst].
  destruct (init_buffers_fold this n_samples n_channels bufsize
              (Z.to_nat n_buffers)
              (mkDMABufferPool [] [] (Some (replicate (Z.to_nat n_buffers)
                                              DMABuffer_default)) p)
              _ eq_refl) as (bs' & -> & Hlen & Hlow & _).
  { rewrite length_replicate. lia. }
  rewrite length_replicate in Hlen. cbn [pool_mem buffers] in *.
  exists bs'. split; [reflexivity |]. split; [exact Hlen |].
  split; [exact Hpmod |].
  assert (Hptr : forall i o, bs' !! i = Some o ->
            (i < Z.to_nat n_buffers)%nat /\
            o = DMABuffer_ctor (Some this) n_samples n_channels
                  (p + Z.of_nat i * bufsize)).
  { intros i o Ho. pose proof (lookup_lt_Some _ _ _ Ho) as Hi.
    rewrite Hlen in Hi. split; [exact Hi |].
    rewrite (Hlow i Hi) in Ho. injection Ho as <-. f_equal.
    assert (Hib : 0 <= Z.of_nat i * bufsize <= n_buffers * bufsize) by nia.
    unfold sizeof_voidp in Hlo.
    rewrite (size_t_small (Z.of_nat i * bufsize)) by lia.
    apply size_t_small. lia. }
  intros i o Ho. destruct (Hptr i o Ho) as (Hi & ->).
  cbn [DMABuffer_ctor buf_ptr]. unfold sizeof_voidp in *.
  assert (Hib : 0 <= Z.of_nat i * bufsize
                /\ Z.of_nat i * bufsize + bufsize <= n_buffers * bufsize)
    by nia.
  split; [reflexivity |]. split.
  { rewrite Z.add_mod, Hpmod, Z.mul_mod, Hbmod, Z.mul_0_r by lia.
    reflexivity. }
  split; [reflexivity |]. split; [lia |]. split; [lia |]. split; [lia |].
  intros j o' Ho' Hij. destruct (Hptr j o' Ho') as (_ & ->).
  cbn [DMABuffer_ctor buf_ptr]. nia.
Qed.

Lemma DMABufferPool_ctor_layout_witness :
  let pl := fst (DMABufferPool_ctor uint16_t 32 0 8 1 4 Scenario.env
                   no_memory) in
  option_map (map buf_ptr) (buffers pl) = Some [4128; 4160; 4192; 4224] /\
  exists bs, buffers pl = Some bs /\
    forall i o, bs !! i = Some o -> buf_ptr o mod 32 = 0.
Proof.
  destruct (DMABufferPool_ctor_layout uint16_t 5 0%nat 8 1 4 Scenario.env
              no_memory ltac:(lia) ltac:(lia) ltac:(vm_compute; reflexivity)
              ltac:(vm_compute; reflexivity) eq_refl heap_malloc_sound
              ltac:(vm_compute; discriminate))
    as (bs & Hbs & _ & _ & Hall).
  cbv zeta. split; [vm_compute; reflexivity |].
  exists bs. split; [exact Hbs |].
  intros i o Ho. destruct (Hall i o Ho) as (_ & Hal & _). exact Hal.
Defined.

(** ** A pool without memory *)

Lemma DMABufferPool_ctor_no_memory T A this n_samples n_channels n_buffers env
    m :
  new_buffers env = false \/ (forall n, sys_malloc env n = 0) ->
  let pl := fst (DMABufferPool_ctor T A this n_samples n_channels n_buffers
                   env m) in
  freeq pl = [] /\ readyq pl = [].
Proof.
  intros Hfail. unfold DMABufferPool_ctor.
  destruct (AlignedAlloc.malloc A (sys_malloc env) _ m) as [p m'] eqn:Hm.
  destruct Hfail as [Hnew | Hoom].
  - rewrite Hnew. rewrite bool_decide_false by (intros E; exact (E eq_refl)).
    cbn. auto.
  - assert (Hp : p = 0).
    { unfold AlignedAlloc.malloc in Hm. rewrite Hoom in Hm.
      destruct (negb (A mod 2 =? 0)); injection Hm as <- _; reflexivity. }
    subst p. cbn [Z.eqb negb]. rewrite andb_false_r. cbn. auto.
Qed.

Section NoMemory.
Context `{Platform}.
Variables (self : AdvancedDAC) (d : nat).
Hypothesis Hself : descr self = Some d.

Lemma deinit_null_slots w dd evs :
  (d < length (dac_descr_all w))%nat ->
  dmabuf dd = [nullptr; nullptr] ->
  dac_descr_deinit (Some d) false (at_descr d dd evs w)
  = Some (at_descr d dd
            (evs ++ [HAL_TIM_Base_Stop d; HAL_DAC_Stop_DMA d (channel dd)])
            w).
Proof.
  intros Hd Hdm. unfold dac_descr_deinit.
  rewrite (at_descr_lookup d w Hd).
  rewrite !(at_descr_log d w), <- app_assoc. cbn [app].
  rewrite (at_descr_lookup d w Hd), Hdm. cbn [length seq].
  rewrite (deinit_loop_null d w Hd) by (rewrite Hdm; reflexivity).
  rewrite (deinit_loop_null d w Hd) by (rewrite Hdm; reflexivity).
  reflexivity.
Qed.

Lemma step_without_memory w w' h' :
  pool_without_memory d w -> step self d (w, []) (w', h') ->
  pool_without_memory d w' /\ h' = [].
Proof.
  intros (dd & pl & Hdd & Hpl & Hf & Hr & Hdm) Hstep.
  pose proof (lookup_lt_Some _ _ _ Hdd) as Hd.
  assert (Hkeep : forall evs, pool_without_memory d (at_descr d dd evs w)).
  { intros evs. exists dd, pl. rewrite (at_descr_lookup d w Hd). auto. }
  inversion Hstep as [ w1 h1 b w2 Hop | w1 h1 b w2 Hb Hop
                     | w1 h1 b w2 Hb Hop | w1 h1 chan ct w2 Hchan Hop
                     | w1 h1 w2 Hop ]; subst.
  - destruct (dequeue_empty self d w dd pl Hself Hdd Hpl Hf) as (_ & Hs).
    rewrite Hs in Hop. discriminate Hop.
  - apply elem_of_nil in Hb. contradiction.
  - apply elem_of_nil in Hb. contradiction.
  - rewrite <- (at_descr_id d dd w Hdd) in Hop.
    rewrite (at_descr_complete_underrun d w Hd dd pl [] Hpl d chan ct Hchan
               Hr) in Hop.
    rewrite (deinit_null_slots w dd [] Hd Hdm) in Hop.
    injection Hop as <-. auto.
  - unfold AdvancedDAC_stop in Hop. rewrite Hself in Hop.
    rewrite <- (at_descr_id d dd w Hdd) in Hop.
    rewrite (deinit_null_slots w dd [] Hd Hdm) in Hop.
    injection Hop as <-. auto.
Qed.

Lemma rtc_without_memory c c' :
  rtc (step self d) c c' -> pool_without_memory d c.1 -> c.2 = [] ->
  pool_without_memory d c'.1 /\ c'.2 = [].
Proof.
  induction 1 as [c | [w1 h1] [w2 h2] c3 Hstep _ IH]; intros Hwm Hh;
    [auto |].
  cbn [fst snd] in *. subst h1.
  destruct (step_without_memory w1 w2 h2 Hwm Hstep) as (Hwm2 & Hh2).
  apply IH; assumption.
Qed.

End NoMemory.

(** X16: a [begin] whose pool object is allocated returns [1] even when
    the array of buffers or the memory of the pool cannot be allocated.  The
    channel is then bound to a pool with no buffer in any queue:
    [available ()] is [false] and [dequeue ()] waits. *)
Theorem AdvancedDAC_begin_without_memory `{Platform} self res frequency
    n_samples n_buffers env w d dd :
  0 <= res < 3 -> resolved self = Some (Some d) ->
  dac_descr_all w !! d = Some dd -> pool dd = None ->
  dmabuf dd = [nullptr; nullptr] -> new_pool env = true ->
  new_buffers env = false \/ (forall n, sys_malloc env n = 0) ->
  exists self' w',
    AdvancedDAC_begin self res frequency n_samples n_buffers env w
    = Some (1, self', w') /\
    descr self' = Some d /\ pool_without_memory d w' /\
    AdvancedDAC_available self' w' = Some false /\
    AdvancedDAC_dequeue self' w' = Some Suspended.
Proof.
  intros Hres Hresolved Hdd Hpool Hdm Hnew Hfail.
  destruct (AdvancedDAC_begin_success self res frequency n_samples n_buffers
              env w d dd Hres Hresolved Hdd Hpool Hnew)
    as (r0 & _ & _ & _ & Hb).
  cbv zeta in Hb. pose proof (lookup_lt_Some _ _ _ Hdd) as Hd.
  destruct (DMABufferPool_ctor_no_memory Sample SCB_DCACHE_LINE_SIZE d
              n_samples (n_channels self) n_buffers env (mem w) Hfail)
    as (Hf & Hr).
  eexists _, _. split; [exact Hb |]. split; [reflexivity |].
  match goal with
  | |- pool_without_memory d ?w1 /\ _ =>
      assert (Hlk : dac_descr_all w1 !! d
                    = Some (with_resolution
                              (with_pool dd
                                 (Some (fst (DMABufferPool_ctor Sample
                                               SCB_DCACHE_LINE_SIZE d
                                               n_samples (n_channels self)
                                               n_buffers env (mem w)))))
                              r0))
        by (cbn; apply list_lookup_insert_eq; exact Hd)
  end.
  split.
  { eexists _, _. split; [exact Hlk |]. split; [reflexivity |].
    split; [exact Hf |]. split; [exact Hr | exact Hdm]. }
  eapply (dequeue_empty _ d); [reflexivity | exact Hlk | reflexivity | exact Hf].
Qed.

Lemma AdvancedDAC_begin_without_memory_witness :
  exists self' w',
    Scenario.began Scenario.env_oom 4 = Some (1, self', w') /\
    AdvancedDAC_dequeue self' w' = Some Suspended.
Proof.
  destruct (AdvancedDAC_begin_without_memory (H := stm32h7) Scenario.dac0 1
              1000 8 4 Scenario.env_oom (world_init (H := stm32h7)) 0%nat _
              ltac:(lia) eq_refl eq_refl eq_refl eq_refl eq_refl
              ltac:(right; reflexivity))
    as (self' & w' & Hb & _ & _ & _ & Hdq).
  exists self', w'. split; [exact Hb | exact Hdq].
Defined.

(** X17: on a channel bound to a pool without memory, whatever happens
    next on the channel (completion callbacks, stops), no buffer ever
    becomes free: in every state that follows [available ()] is [false],
    [dequeue ()] never returns, and the application holds no buffer to
    submit. *)
Theorem dequeue_never_returns `{Platform} self d w0 c :
  descr self = Some d -> pool_without_memory d w0 ->
  reachable self d w0 c ->
  pool_without_memory d c.1 /\ c.2 = [] /\
  AdvancedDAC_available self c.1 = Some false /\
  AdvancedDAC_dequeue self c.1 = Some Suspended.
Proof.
  intros Hself Hwm Hreach.
  destruct (rtc_without_memory self d Hself (w0, []) c Hreach Hwm eq_refl)
    as (Hwm' & Hh).
  split; [exact Hwm' |]. split; [exact Hh |].
  destruct Hwm' as (dd & pl & Hdd & Hpl & Hf & _).
  exact (dequeue_empty self d c.1 dd pl Hself Hdd Hpl Hf).
Qed.

Lemma dequeue_never_returns_witness :
  exists w,
    reachable (H := stm32h7) Scenario.dac1 0 Cases.w_no_memory (w, []) /\
    hal w = hal Cases.w_no_memory
            ++ [HAL_TIM_Base_Stop 0; HAL_DAC_Stop_DMA 0 0] /\
    AdvancedDAC_dequeue Scenario.dac1 w = Some Suspended.
Proof.
  set (w := Scenario.or_else
              (option_map snd
                 (AdvancedDAC_stop Scenario.dac1 Cases.w_no_memory))
              Cases.w_no_memory).
  assert (Hstop : AdvancedDAC_stop Scenario.dac1 Cases.w_no_memory
                  = Some (1, w)) by (vm_compute; reflexivity).
  assert (Hreach : reachable (H := stm32h7) Scenario.dac1 0 Cases.w_no_memory
                     (w, [])).
  { apply rtc_once. apply step_stop. exact Hstop. }
  assert (Hwm : pool_without_memory 0 Cases.w_no_memory).
  { eexists _, _. split; [vm_compute; reflexivity |].
    repeat (split; [reflexivity |]). reflexivity. }
  destruct (dequeue_never_returns (H := stm32h7) Scenario.dac1 0%nat
              Cases.w_no_memory (w, []) eq_refl Hwm Hreach)
    as (_ & _ & _ & Hdq).
  exists w. split; [exact Hreach |]. split; [| exact Hdq].
  vm_compute. reflexivity.
Defined.

(** ** The descriptor of a channel *)

(** X18: with two distinct channel numbers, [dac_descr_get] finds the
    descriptor of [dac_descr_all] whose channel is its argument, and gives
    null exactly for a number that is neither channel's. *)
Theorem dac_descr_get_spec `{Platform} chan :
  DAC_CHANNEL_1 <> DAC_CHANNEL_2 ->
  (forall d, dac_descr_get chan = Some d <->
             exists dd, dac_descr_all_init !! d = Some dd /\
                        channel dd = chan) /\
  (dac_descr_get chan = None <->
   chan <> DAC_CHANNEL_1 /\ chan <> DAC_CHANNEL_2).
Proof.
  intros Hne. unfold dac_descr_get, dac_descr_all_init. split.
  - intros d. split.
    + destruct (Z.eqb_spec chan DAC_CHANNEL_1) as [-> | H1].
      { intros [= <-]. eexists. split; reflexivity. }
      destruct (Z.eqb_spec chan DAC_CHANNEL_2) as [-> | H2]; [| discriminate].
      intros [= <-]. eexists. split; reflexivity.
    + intros (dd & Hdd & <-).
      destruct d as [| [| d]]; cbn in Hdd; try discriminate Hdd;
        injection Hdd as <-; cbn [channel].
      * rewrite Z.eqb_refl. reflexivity.
      * destruct (Z.eqb_spec DAC_CHANNEL_2 DAC_CHANNEL_1) as [E | _];
          [congruence |]. rewrite Z.eqb_refl. reflexivity.
  - destruct (Z.eqb_spec chan DAC_CHANNEL_1) as [-> | H1].
    { split; [discriminate | intros [E _]; contradiction]. }
    destruct (Z.eqb_spec chan DAC_CHANNEL_2) as [-> | H2].
    { split; [discriminate | intros [_ E]; contradiction]. }
    split; auto.
Qed.

Lemma dac_descr_get_spec_witness :
  dac_descr_get (H := stm32h7) 16 = Some 1%nat /\
  dac_descr_get (H := stm32h7) 1 = None.
Proof.
  destruct (dac_descr_get_spec (H := stm32h7) 16 ltac:(discriminate))
    as (Hsome & _).
  destruct (dac_descr_get_spec (H := stm32h7) 1 ltac:(discriminate))
    as (_ & Hnone).
  split.
  - apply Hsome. eexists. split; reflexivity.
  - apply Hnone. split; discriminate.
Defined.

(** ** Abandoning a buffer *)

(** X19: a buffer that the application acquires and releases without
    submitting it goes from the front to the back of the free queue: after
    [dequeue ()] and [release ()] the free queue holds the same buffers, the
    ready queue and the in-flight slots are as before, and the HAL saw
    nothing. *)
Theorem acquire_release_round_trip `{Platform} self d N w dd pl b q :
  descr self = Some d ->
  dac_descr_all w !! d = Some dd -> pool dd = Some pl ->
  buffers_bound d N pl ->
  freeq pl = b :: q -> b ∈ pool_buffers d N ->
  exists w1 w2 dd2 pl2,
    AdvancedDAC_dequeue self w = Some (Acquired b w1) /\
    DMABuffer_release b w1 = Some w2 /\
    dac_descr_all w2 !! d = Some dd2 /\ pool dd2 = Some pl2 /\
    freeq pl2 = q ++ [b] /\ readyq pl2 = readyq pl /\
    dmabuf dd2 = dmabuf dd /\ hal w2 = hal w /\
    option_map (map buf_ptr) (buffers pl2)
    = option_map (map buf_ptr) (buffers pl).
Proof.
  intros Hself Hdd Hpl Hbound Hq Hb.
  pose proof (lookup_lt_Some _ _ _ Hdd) as Hd.
  destruct (dequeue_head self d N w dd pl Hself Hdd Hpl Hbound b q Hq Hb)
    as (_ & Hdq).
  pose proof (at_descr_release_bound d N w Hd
                (with_pool dd (Some (with_freeq pl q))) (with_freeq pl q) []
                b eq_refl Hbound Hb) as Hrel.
  destruct (released_queues d N (with_freeq pl q) b Hbound Hb)
    as (Hf & Hr & _).
  eexists _, _, _, _. split; [exact Hdq |]. split; [exact Hrel |].
  split; [apply (at_descr_lookup d w Hd) |]. split; [reflexivity |].
  split; [exact Hf |]. split; [exact Hr |]. split; [reflexivity |].
  split; [unfold at_descr; cbn [hal]; apply app_nil_r |].
  apply (released_same_memory (with_freeq pl q) b).
Qed.

Lemma acquire_release_round_trip_witness :
  exists w1 w2 dd2 pl2,
    AdvancedDAC_dequeue Scenario.dac1 Scenario.w_begun
    = Some (Acquired (bufat 0 0) w1) /\
    DMABuffer_release (bufat 0 0) w1 = Some w2 /\
    dac_descr_all w2 !! 0%nat = Some dd2 /\ pool dd2 = Some pl2 /\
    freeq pl2 = [bufat 0 1; bufat 0 2; bufat 0 3; bufat 0 0].
Proof.
  destruct (acquire_release_round_trip (H := stm32h7) Scenario.dac1 0%nat
              4%nat Scenario.w_begun
              (mk_dac_descr 0 0
                 (Some (mkDMABufferPool (pool_buffers 0 4) []
                          (Some Scenario.four_buffers) 4128))
                 [nullptr; nullptr])
              (mkDMABufferPool (pool_buffers 0 4) []
                 (Some Scenario.four_buffers) 4128)
              (bufat 0 0) [bufat 0 1; bufat 0 2; bufat 0 3]
              eq_refl ltac:(vm_compute; reflexivity) eq_refl
              (four_buffers_bound _ _) eq_refl
              ltac:(apply elem_of_pool_buffers; exists 0%nat;
                    split; [reflexivity | lia]))
    as (w1 & w2 & dd2 & pl2 & Hdq & Hrel & Hdd & Hpl & Hf & _).
  exists w1, w2, dd2, pl2. repeat (split; [assumption |]). exact Hf.
Defined.
